(** * The Warp+ key generator (main.py): a shallow embedding

    The script talks to a remote registration API, reads an environment
    variable, draws from [random], sleeps, logs and rewrites one JSON file.
    Every function of main.py is embedded below as a computation in a small
    state-and-exception monad over an explicit [world]: the events produced
    so far, the replies the remote end will give, the numbers the random
    generator will return and the content of GeneratedKeys.json. *)

From Stdlib Require Import List String Ascii ZArith Bool Arith Lia.
From Stdlib Require Import DecimalString.
Import ListNotations.

Set Warnings "-register-all".

Local Open Scope list_scope.
Local Open Scope string_scope.

(** ** Python values

    The values that flow through the script are the ones [json] produces
    and the literals of the script itself: [None], booleans, integers,
    strings, lists and dictionaries with string keys. A dictionary keeps its
    insertion order, as in Python, and is an association list. JSON numbers
    with a fraction or an exponent (Python floats) are outside this model. *)

Inductive pyval : Type :=
| PNone
| PBool (b : bool)
| PInt (z : Z)
| PStr (s : string)
| PList (l : list pyval)
| PDict (d : list (string * pyval)).

(** The exceptions the script can meet; all of them derive from
    [Exception], so [except Exception] catches each one. *)
Inductive exn : Type :=
| KeyError (key : string)
| TypeError
| AttributeError
| IndexError
| JSONDecodeError
| OSError
| TransportError (msg : string).

Inductive result (A : Type) : Type :=
| Ok (a : A)
| Err (e : exn).
Arguments Ok {A} a.
Arguments Err {A} e.

(** ** Strings: [str.split], [repr], [str] *)

Module PyStr.

(** [s.split(sep)] for a one-character separator: never an empty list. *)
Fixpoint split (sep : ascii) (s : string) : list string :=
  match s with
  | EmptyString => [EmptyString]
  | String c rest =>
      if Ascii.eqb c sep then EmptyString :: split sep rest
      else match split sep rest with
           | h :: t => String c h :: t
           | [] => [String c EmptyString]
           end
  end.

(** [sep.join(parts)] *)
Fixpoint join (sep : string) (parts : list string) : string :=
  match parts with
  | [] => EmptyString
  | [p] => p
  | p :: rest => p ++ sep ++ join sep rest
  end.

Fixpoint contains (c : ascii) (s : string) : bool :=
  match s with
  | EmptyString => false
  | String d rest => Ascii.eqb c d || contains c rest
  end.

Definition hex_digit (n : nat) : ascii :=
  match n with
  | 0 => "0" | 1 => "1" | 2 => "2" | 3 => "3" | 4 => "4" | 5 => "5"
  | 6 => "6" | 7 => "7" | 8 => "8" | 9 => "9" | 10 => "a" | 11 => "b"
  | 12 => "c" | 13 => "d" | 14 => "e" | _ => "f"
  end%char.

(** [str.isprintable] on the code points below 256, a character of a Rocq
    string being read as the code point of that number. *)
Definition printable (c : ascii) : bool :=
  let n := nat_of_ascii c in
  (((32 <=? n) && (n <=? 126)) || ((161 <=? n) && negb (n =? 173)))%nat.

(** One character of [repr(s)], [q] being the quote chosen for the string. *)
Definition escape (q : ascii) (c : ascii) : string :=
  if Ascii.eqb c q || Ascii.eqb c "\"%char then String "\"%char (String c EmptyString)
  else if Ascii.eqb c "009"%char then "\t"
  else if Ascii.eqb c "010"%char then "\n"
  else if Ascii.eqb c "013"%char then "\r"
  else if printable c then String c EmptyString
  else let n := nat_of_ascii c in
       String "\"%char (String "x"%char
         (String (hex_digit (n / 16)) (String (hex_digit (n mod 16)) EmptyString))).

Fixpoint escape_all (q : ascii) (s : string) : string :=
  match s with
  | EmptyString => EmptyString
  | String c rest => escape q c ++ escape_all q rest
  end.

(** [repr(s)]: single quotes, unless the string holds a single quote and no
    double quote. *)
Definition repr (s : string) : string :=
  let q := if contains "'"%char s && negb (contains "034"%char s)
           then "034"%char else "'"%char in
  String q (escape_all q s ++ String q EmptyString).

End PyStr.

Module Py.

Definition repr_int (z : Z) : string := NilZero.string_of_int (Z.to_int z).

(** [repr(v)] *)
Fixpoint repr (v : pyval) : string :=
  match v with
  | PNone => "None"
  | PBool true => "True"
  | PBool false => "False"
  | PInt z => repr_int z
  | PStr s => PyStr.repr s
  | PList l => "[" ++ PyStr.join ", " (map repr l) ++ "]"
  | PDict d =>
      "{" ++ PyStr.join ", "
               (map (fun kv => PyStr.repr (fst kv) ++ ": " ++ repr (snd kv)) d)
          ++ "}"
  end.

(** [str(v)], which is what [f'{v}'] renders. *)
Definition str (v : pyval) : string :=
  match v with
  | PStr s => s
  | _ => repr v
  end.

(** [bool(v)] *)
Definition truthy (v : pyval) : bool :=
  match v with
  | PNone => false
  | PBool b => b
  | PInt z => negb (z =? 0)%Z
  | PStr s => negb (String.eqb s EmptyString)
  | PList l => match l with [] => false | _ => true end
  | PDict d => match d with [] => false | _ => true end
  end.

Fixpoint lookup (key : string) (d : list (string * pyval)) : option pyval :=
  match d with
  | [] => None
  | (k, v) :: rest => if String.eqb key k then Some v else lookup key rest
  end.

(** [a == b]: numbers compare by value ([True == 1]), lists elementwise,
    dictionaries as maps. *)
Fixpoint eq (a b : pyval) {struct a} : bool :=
  match a, b with
  | PNone, PNone => true
  | PBool x, PBool y => Bool.eqb x y
  | PBool x, PInt y => (Z.b2z x =? y)%Z
  | PInt x, PBool y => (x =? Z.b2z y)%Z
  | PInt x, PInt y => (x =? y)%Z
  | PStr x, PStr y => String.eqb x y
  | PList l1, PList l2 =>
      (fix go (l1 l2 : list pyval) : bool :=
         match l1, l2 with
         | [], [] => true
         | x :: r1, y :: r2 => eq x y && go r1 r2
         | _, _ => false
         end) l1 l2
  | PDict d1, PDict d2 =>
      Nat.eqb (List.length d1) (List.length d2)
      && (fix go (d : list (string * pyval)) : bool :=
            match d with
            | [] => true
            | (k, v) :: rest =>
                match lookup k d2 with
                | Some v' => eq v v'
                | None => false
                end && go rest
            end) d1
  | _, _ => false
  end.

(** [a != b] *)
Definition ne (a b : pyval) : bool := negb (eq a b).

(** [v[key]] for a string key. *)
Definition getitem (v : pyval) (key : string) : result pyval :=
  match v with
  | PDict d =>
      match lookup key d with
      | Some x => Ok x
      | None => Err (KeyError key)
      end
  | _ => Err TypeError
  end.

End Py.


(** ** The world around the script *)

Inductive verb : Type := POST | PATCH | PUT | GET | DELETE.

(** One call of an [httpx.Client] method, by what the script passes to it:
    the verb, the headers and the JSON body given at the call, and in
    [rq_url] the base URL of the client followed by the path given at the
    call, as the script wrote them. How httpx then merges the two and
    normalises the path (dot segments, escapes) is not modelled: an event is
    the call, not the bytes on the wire. *)
Record request : Type := mk_request {
  rq_verb : verb;
  rq_url : string;
  rq_headers : list (string * string);
  rq_json : option pyval
}.

(** What a call of the client comes back with: an exception (a timeout, a
    connection failure) or a response, whose body parses as JSON or not.
    The script never looks at the status code. *)
Inductive reply : Type :=
| Raises (e : exn)
| Response (body : option pyval).

Inductive event : Type :=
| EvHttp (r : request)
| EvInfo (msg : string)
| EvError (msg : string) (e : exn)
| EvSleep (seconds : Z).

(** GeneratedKeys.json: absent, or present with a text. The text is kept by
    what the script can make of it: [content], the value [json.load] reads
    from it ([None] when [json.load] raises); [size], its length in bytes;
    [padding], the number of whitespace bytes at its end. This is enough to
    follow a rewrite that does not truncate: the new text replaces the first
    bytes of the old one and the rest of the old text stays behind it, and
    [json.load] takes a document followed by whitespace and refuses one
    followed by anything else. [json.load] of a text written by [json.dump]
    is taken to give the dumped value back. Newlines are written as one
    byte. Failures of the file system itself (permissions, a full disk) are
    not modelled. *)
Inductive store : Type :=
| Absent
| Present (content : option pyval) (size padding : nat).

(** [events] is in order of occurrence; [replies 0] and [randoms 0] are the
    next reply of the remote end and the next number of the generator. *)
Record world : Type := mk_world {
  events : list event;
  replies : nat -> reply;
  randoms : nat -> nat;
  file : store
}.

Definition M (A : Type) : Type := world -> result A * world.

Definition ret {A} (a : A) : M A := fun w => (Ok a, w).

Definition raise {A} (e : exn) : M A := fun w => (Err e, w).

Definition bind {A B} (m : M A) (k : A -> M B) : M B :=
  fun w =>
    match m w with
    | (Ok a, w') => k a w'
    | (Err e, w') => (Err e, w')
    end.

(** [try: body except Exception as e: handler(e)] *)
Definition try_except {A} (body : M A) (handler : exn -> M A) : M A :=
  fun w =>
    match body w with
    | (Ok a, w') => (Ok a, w')
    | (Err e, w') => handler e w'
    end.

Definition lift {A} (r : result A) : M A := fun w => (r, w).

Declare Scope py_scope.
Delimit Scope py_scope with py.
Notation "x <- m ;; k" := (bind m (fun x => k))
  (at level 61, m at next level, right associativity) : py_scope.
Notation "' pat <- m ;; k" := (bind m (fun x => match x with pat => k end))
  (at level 61, pat pattern, m at next level, right associativity) : py_scope.
Notation "m ;; k" := (bind m (fun _ => k))
  (at level 61, right associativity) : py_scope.
Local Open Scope py_scope.

Definition exec {A} (m : M A) (w : world) : world := snd (m w).

Definition emit (e : event) : M unit :=
  fun w => (Ok tt, mk_world (events w ++ [e])%list (replies w) (randoms w) (file w)).

Definition set_file (s : store) : M unit :=
  fun w => (Ok tt, mk_world (events w) (replies w) (randoms w) s).

Module logging.
Definition info (msg : string) : M unit := emit (EvInfo msg).
(** [logging.error(f'{msg}{e}')] *)
Definition error (msg : string) (e : exn) : M unit := emit (EvError msg e).
End logging.

Module time.
Definition sleep (seconds : Z) : M unit := emit (EvSleep seconds).
End time.

Module random.
(** [random.choice(seq)]: [IndexError] on an empty sequence, otherwise the
    element at an index below [len(seq)] taken from the generator. *)
Definition choice {A} (seq : list A) : M A :=
  fun w =>
    match seq with
    | [] => (Err IndexError, w)
    | _ =>
        let w' := mk_world (events w) (replies w) (fun n => randoms w (S n)) (file w) in
        match nth_error seq (randoms w 0 mod List.length seq) with
        | Some x => (Ok x, w')
        | None => (Err IndexError, w')
        end
    end.
End random.

(** The [httpx.Client] of [create_http_client]. *)
Record Client : Type := mk_client {
  base_url : string;
  headers : list (string * string);
  timeout : Z
}.

Module httpx.

Definition send (client : Client) (v : verb) (path : string)
    (hdrs : list (string * string)) (json : option pyval) : M (option pyval) :=
  fun w =>
    let rq := mk_request v (base_url client ++ path) hdrs json in
    let w' := mk_world (events w ++ [EvHttp rq])%list
                       (fun n => replies w (S n)) (randoms w) (file w) in
    match replies w 0 with
    | Raises e => (Err e, w')
    | Response body => (Ok body, w')
    end.

Definition post client path := send client POST path [] None.
Definition patch client path hdrs json := send client PATCH path hdrs (Some json).
Definition put client path hdrs json := send client PUT path hdrs (Some json).
Definition get client path hdrs := send client GET path hdrs None.
Definition delete client path hdrs := send client DELETE path hdrs None.

(** [response.json()] *)
Definition json (response : option pyval) : M pyval :=
  match response with
  | Some v => ret v
  | None => raise JSONDecodeError
  end.

End httpx.

Module os_path.
Definition exists_ : M bool :=
  fun w => (Ok (match file w with Absent => false | Present _ _ _ => true end), w).
End os_path.

Module json.

Definition newline : string := String "010"%char EmptyString.

Fixpoint spaces (n : nat) : string :=
  match n with
  | 0 => EmptyString
  | S m => String " "%char (spaces m)
  end.

(** The line break and the indentation in front of an item at depth
    [level]; nothing without [indent]. *)
Definition newline_indent (indent : option nat) (level : nat) : string :=
  match indent with
  | None => EmptyString
  | Some k => newline ++ spaces (k * level)
  end.

(** [', '] by default, [','] when [indent] is given. *)
Definition item_separator (indent : option nat) : string :=
  match indent with
  | None => ", "
  | Some _ => ","
  end.

(** One character of a string as the encoder writes it with
    [ensure_ascii]: the short escapes, the character itself from the space
    to the tilde, and [\u00xx] for the rest. *)
Definition escape (c : ascii) : string :=
  let n := nat_of_ascii c in
  if Ascii.eqb c "034"%char then String "\"%char (String "034"%char EmptyString)
  else if Ascii.eqb c "\"%char then "\\"
  else if Ascii.eqb c "010"%char then "\n"
  else if Ascii.eqb c "013"%char then "\r"
  else if Ascii.eqb c "009"%char then "\t"
  else if Ascii.eqb c "008"%char then "\b"
  else if Ascii.eqb c "012"%char then "\f"
  else if ((32 <=? n) && (n <=? 126))%nat then String c EmptyString
  else "\u00" ++ String (PyStr.hex_digit (n / 16))
                   (String (PyStr.hex_digit (n mod 16)) EmptyString).

Fixpoint escape_all (s : string) : string :=
  match s with
  | EmptyString => EmptyString
  | String c rest => escape c ++ escape_all rest
  end.

Definition encode_string (s : string) : string :=
  String "034"%char (escape_all s ++ String "034"%char EmptyString).

(** The text of [v] at depth [level], as [JSONEncoder.iterencode] builds
    it. *)
Fixpoint encode (indent : option nat) (level : nat) (v : pyval) : string :=
  match v with
  | PNone => "null"
  | PBool true => "true"
  | PBool false => "false"
  | PInt z => Py.repr_int z
  | PStr s => encode_string s
  | PList l =>
      match l with
      | [] => "[]"
      | _ =>
          "[" ++ newline_indent indent (S level)
          ++ PyStr.join (item_separator indent ++ newline_indent indent (S level))
               (map (encode indent (S level)) l)
          ++ newline_indent indent level ++ "]"
      end
  | PDict d =>
      match d with
      | [] => "{}"
      | _ =>
          "{" ++ newline_indent indent (S level)
          ++ PyStr.join (item_separator indent ++ newline_indent indent (S level))
               (map (fun kv => encode_string (fst kv) ++ ": "
                               ++ encode indent (S level) (snd kv)) d)
          ++ newline_indent indent level ++ "}"
      end
  end.

(** [json.dumps(v, indent=indent)]: the text that [json.dump] writes. *)
Definition dumps (v : pyval) (indent : option nat) : string := encode indent 0 v.

(** Where [json.dump] writes: into the file just opened with ['w'], which
    is empty, or into the file opened with ['r+'], read to its end and set
    back to offset 0 by [seek(0)], which still holds its old text. *)
Inductive target : Type :=
| opened_w
| rewound.

(** The file after a text of [written] bytes, the text of [v], is written
    over its first bytes and nothing is cut off. *)
Definition overwritten (v : pyval) (written size padding : nat) : store :=
  if (size <=? written)%nat then Present (Some v) written 0
  else if (size - written <=? padding)%nat
       then Present (Some v) size (size - written)
       else Present None size padding.

(** [json.dump(v, file, indent=indent)] *)
Definition dump (v : pyval) (indent : option nat) (fp : target) : M unit :=
  fun w =>
    let written := String.length (dumps v indent) in
    match fp, file w with
    | opened_w, _ => set_file (Present (Some v) written 0) w
    | rewound, Present _ size padding =>
        set_file (overwritten v written size padding) w
    | rewound, Absent => (Err OSError, w)
    end.

(** [json.load(file)] on the file opened with ['r+'] *)
Definition load : M pyval :=
  fun w =>
    match file w with
    | Absent => (Err OSError, w)
    | Present None _ _ => (Err JSONDecodeError, w)
    | Present (Some v) _ _ => (Ok v, w)
    end.

End json.

(** [data.append(x)] *)
Definition append (data x : pyval) : M pyval :=
  match data with
  | PList l => ret (PList (l ++ [x])%list)
  | _ => raise AttributeError
  end.

(** [range(n)] *)
Definition range (n : Z) : list Z := map Z.of_nat (seq 0 (Z.to_nat n)).

(** [for i in idxs: body(i)] *)
Fixpoint for_each (idxs : list Z) (body : Z -> M unit) : M unit :=
  match idxs with
  | [] => ret tt
  | i :: rest => body i ;; for_each rest body
  end.

(** ** main.py *)

(** [keys = [os.getenv('KEYS').split(',')]], run when the module is loaded:
    [os.getenv] gives [None] for a variable that is not set, and [None] has
    no [split]. *)
Definition load_keys (KEYS : option string) : result (list pyval) :=
  match KEYS with
  | None => Err AttributeError
  | Some s => Ok [PList (map PStr (PyStr.split ","%char s))]
  end.

Definition save_key_to_file (key_info : pyval) : M unit :=
  try_except
    (present <- os_path.exists_ ;;
     (if negb present then json.dump (PList []) None json.opened_w else ret tt) ;;
     data <- json.load ;;
     data <- append data key_info ;;
     json.dump data (Some 4) json.rewound ;;
     license <- lift (Py.getitem key_info "license") ;;
     logging.info ("Key successfully saved: " ++ Py.str license))
    (fun e => logging.error "Error saving to file: " e).

Definition register_user (client : Client) : M (pyval * pyval * pyval) :=
  response <- httpx.post client "/reg" ;;
  user_info <- httpx.json response ;;
  logging.info "New user registered successfully." ;;
  id <- lift (Py.getitem user_info "id") ;;
  account <- lift (Py.getitem user_info "account") ;;
  license <- lift (Py.getitem account "license") ;;
  token <- lift (Py.getitem user_info "token") ;;
  ret (id, license, token).

Definition register_referral_user (client : Client) : M (pyval * pyval) :=
  response <- httpx.post client "/reg" ;;
  referral_info <- httpx.json response ;;
  logging.info "Referral user registered successfully." ;;
  id <- lift (Py.getitem referral_info "id") ;;
  token <- lift (Py.getitem referral_info "token") ;;
  ret (id, token).

Definition add_referral_and_delete (client : Client)
    (user_id user_token referral_id referral_token : pyval) : M unit :=
  httpx.patch client ("/reg/" ++ Py.str user_id)
    [("Authorization", "Bearer " ++ Py.str user_token);
     ("Content-Type", "application/json; charset=UTF-8")]
    (PDict [("referrer", PStr (Py.str referral_id))]) ;;
  logging.info "Referral added to the user." ;;
  httpx.delete client ("/reg/" ++ Py.str referral_id)
    [("Authorization", "Bearer " ++ Py.str referral_token)] ;;
  logging.info "Referral user deleted.".

Section Keys.

(** The module-level [keys], set once when the module is loaded. *)
Variable keys : list pyval.

Definition swap_license_keys (client : Client)
    (user_id initial_license user_token : pyval) : M unit :=
  selected_key <- random.choice keys ;;
  httpx.put client ("/reg/" ++ Py.str user_id ++ "/account")
    [("Authorization", "Bearer " ++ Py.str user_token);
     ("Content-Type", "application/json; charset=UTF-8")]
    (PDict [("license", PStr (Py.str selected_key))]) ;;
  httpx.put client ("/reg/" ++ Py.str user_id ++ "/account")
    [("Authorization", "Bearer " ++ Py.str user_token);
     ("Content-Type", "application/json; charset=UTF-8")]
    (PDict [("license", PStr (Py.str initial_license))]) ;;
  logging.info "License key applied and reverted.".

Definition get_updated_user_info (client : Client) (user_id user_token : pyval)
    : M (pyval * pyval * pyval * pyval) :=
  response <- httpx.get client ("/reg/" ++ Py.str user_id ++ "/account")
                [("Authorization", "Bearer " ++ Py.str user_token)] ;;
  user_info <- httpx.json response ;;
  logging.info "Updated user information retrieved." ;;
  referral_count <- lift (Py.getitem user_info "referral_count") ;;
  license <- lift (Py.getitem user_info "license") ;;
  warp_plus <- lift (Py.getitem user_info "warp_plus") ;;
  quota <- lift (Py.getitem user_info "quota") ;;
  ret (referral_count, license, warp_plus, quota).

Definition delete_user (client : Client) (user_id user_token : pyval) : M unit :=
  httpx.delete client ("/reg/" ++ Py.str user_id)
    [("Authorization", "Bearer " ++ Py.str user_token)] ;;
  logging.info "User deleted after data retrieval.".

Definition generate_and_save_key (client : Client) : M unit :=
  try_except
    ('(user_id, initial_license, user_token) <- register_user client ;;
     '(referral_id, referral_token) <- register_referral_user client ;;
     add_referral_and_delete client user_id user_token referral_id referral_token ;;
     swap_license_keys client user_id initial_license user_token ;;
     '(referral_count, final_license, warp_plus, quota) <-
        get_updated_user_info client user_id user_token ;;
     delete_user client user_id user_token ;;
     if Py.truthy warp_plus && Py.ne quota (PInt 0)
     then save_key_to_file (PDict [("Quota", quota); ("license", final_license)])
     else ret tt)
    (fun error => logging.error "Error during HTTP request processing: " error).

Definition create_http_client : Client :=
  mk_client "https://api.cloudflareclient.com/v0a2223"
    [("CF-Client-Version", "a-6.11-2223");
     ("Host", "api.cloudflareclient.com");
     ("Connection", "Keep-Alive");
     ("Accept-Encoding", "gzip");
     ("User-Agent", "okhttp/3.12.1");
     ("Content-Type", "application/json; charset=UTF-8")]
    35.

Definition apply_delay_if_needed (current_index total_count : Z) : M unit :=
  if negb (current_index =? total_count - 1)%Z then time.sleep 45 else ret tt.

Definition main (number_of_keys_to_generate : Z) : M unit :=
  logging.info "Welcome to the Warp+ key generator" ;;
  let client := create_http_client in
  for_each (range number_of_keys_to_generate) (fun i =>
    logging.info ("Starting key generation process for key #"
                  ++ Py.str (PInt (i + 1))) ;;
    generate_and_save_key client ;;
    apply_delay_if_needed i number_of_keys_to_generate).

End Keys.

(** The module as a whole: [keys] is computed while the module loads, then
    the [__main__] block calls [main]; the script as distributed calls
    [main(1)]. An exception of the load is not caught by anything. *)
Definition run_module (KEYS : option string) (number_of_keys : Z) : M unit :=
  keys <- lift (load_keys KEYS) ;;
  main keys number_of_keys.

Definition script (KEYS : option string) : M unit := run_module KEYS 1.

(** ** Reading a run *)

(** The events of [w'] that came after those of [w]. *)
Definition since (w w' : world) : list event :=
  skipn (List.length (events w)) (events w').

Fixpoint requests_of (evs : list event) : list request :=
  match evs with
  | [] => []
  | EvHttp r :: rest => r :: requests_of rest
  | _ :: rest => requests_of rest
  end.

Definition is_sleep (e : event) : bool :=
  match e with
  | EvSleep _ => true
  | _ => false
  end.

Definition start_prefix : string := "Starting key generation process for key #".

(** The start of iteration [i] of the batch, as [main] logs it. *)
Definition iteration_start (i : Z) : event :=
  EvInfo (start_prefix ++ Py.str (PInt (i + 1))).

Definition is_iteration_start (e : event) : bool :=
  match e with
  | EvInfo msg => String.prefix start_prefix msg
  | _ => false
  end.

(** The pacing skeleton of a run: its iteration starts and its delays, in
    the order they happened. *)
Definition pace_marks (evs : list event) : list event :=
  filter (fun e => is_iteration_start e || is_sleep e) evs.

Definition sleeps (evs : list event) : list event := filter is_sleep evs.

(** One delay of 45 between two consecutive iterations, none after the
    last. *)
Fixpoint paced (idxs : list Z) : list event :=
  match idxs with
  | [] => []
  | i :: rest =>
      match rest with
      | [] => [iteration_start i]
      | _ => iteration_start i :: EvSleep 45 :: paced rest
      end
  end.

Definition with_file (w : world) (s : store) : world :=
  mk_world (events w) (replies w) (randoms w) s.

(** The records held by the store; an absent file holds none. *)
Definition records (s : store) : list pyval :=
  match s with
  | Present (Some (PList l)) _ _ => l
  | _ => []
  end.

(** A store the persister can extend: no file yet, or a JSON array. *)
Definition appendable (s : store) : bool :=
  match s with
  | Absent => true
  | Present (Some (PList _)) _ _ => true
  | _ => false
  end.

(** A store that takes every append: no file yet, or a JSON array whose
    text, the whitespace at its end aside, is not longer than the text the
    script itself writes for that array. Any file the script wrote is of
    this kind. *)
Definition rewritable (s : store) : bool :=
  match s with
  | Absent => true
  | Present (Some (PList l)) size padding =>
      (size - padding <=? String.length (json.dumps (PList l) (Some 4)))%nat
  | _ => false
  end.

(** The stages of one iteration, up to the point where stage [k] raises [e]
    and leaves the world [w'], every stage before it having returned. *)
Inductive stage_error (keys : list pyval) (client : Client) (w : world)
  : exn -> world -> Prop :=
| registering_raises e w1 :
    register_user client w = (Err e, w1) ->
    stage_error keys client w e w1
| referral_raises uid lic tok w1 e w2 :
    register_user client w = (Ok (uid, lic, tok), w1) ->
    register_referral_user client w1 = (Err e, w2) ->
    stage_error keys client w e w2
| linking_raises uid lic tok w1 rid rtok w2 e w3 :
    register_user client w = (Ok (uid, lic, tok), w1) ->
    register_referral_user client w1 = (Ok (rid, rtok), w2) ->
    add_referral_and_delete client uid tok rid rtok w2 = (Err e, w3) ->
    stage_error keys client w e w3
| swapping_raises uid lic tok w1 rid rtok w2 w3 e w4 :
    register_user client w = (Ok (uid, lic, tok), w1) ->
    register_referral_user client w1 = (Ok (rid, rtok), w2) ->
    add_referral_and_delete client uid tok rid rtok w2 = (Ok tt, w3) ->
    swap_license_keys keys client uid lic tok w3 = (Err e, w4) ->
    stage_error keys client w e w4
| reading_raises uid lic tok w1 rid rtok w2 w3 w4 e w5 :
    register_user client w = (Ok (uid, lic, tok), w1) ->
    register_referral_user client w1 = (Ok (rid, rtok), w2) ->
    add_referral_and_delete client uid tok rid rtok w2 = (Ok tt, w3) ->
    swap_license_keys keys client uid lic tok w3 = (Ok tt, w4) ->
    get_updated_user_info client uid tok w4 = (Err e, w5) ->
    stage_error keys client w e w5
| disposing_raises uid lic tok w1 rid rtok w2 w3 w4 st w5 e w6 :
    register_user client w = (Ok (uid, lic, tok), w1) ->
    register_referral_user client w1 = (Ok (rid, rtok), w2) ->
    add_referral_and_delete client uid tok rid rtok w2 = (Ok tt, w3) ->
    swap_license_keys keys client uid lic tok w3 = (Ok tt, w4) ->
    get_updated_user_info client uid tok w4 = (Ok st, w5) ->
    delete_user client uid tok w5 = (Err e, w6) ->
    stage_error keys client w e w6.

(** An iteration whose six network stages all return: registration gave
    [initial_license], the reader gave the account state
    [(referral_count, final_license, warp_plus, quota)], and the disposer left
    the world [w']. *)
Definition acquires (keys : list pyval) (client : Client) (w : world)
    (initial_license referral_count final_license warp_plus quota : pyval)
    (w' : world) : Prop :=
  exists uid tok rid rtok w1 w2 w3 w4 w5,
    register_user client w = (Ok (uid, initial_license, tok), w1)
    /\ register_referral_user client w1 = (Ok (rid, rtok), w2)
    /\ add_referral_and_delete client uid tok rid rtok w2 = (Ok tt, w3)
    /\ swap_license_keys keys client uid initial_license tok w3 = (Ok tt, w4)
    /\ get_updated_user_info client uid tok w4
       = (Ok (referral_count, final_license, warp_plus, quota), w5)
    /\ delete_user client uid tok w5 = (Ok tt, w').

(** The two license updates of the swapper, as requests. *)
Definition license_update (client : Client) (user_id user_token : pyval)
    (license : string) : request :=
  mk_request PUT (base_url client ++ "/reg/" ++ Py.str user_id ++ "/account")
    [("Authorization", "Bearer " ++ Py.str user_token);
     ("Content-Type", "application/json; charset=UTF-8")]
    (Some (PDict [("license", PStr license)])).

Definition referrer_update (client : Client)
    (user_id user_token referral_id : pyval) : request :=
  mk_request PATCH (base_url client ++ "/reg/" ++ Py.str user_id)
    [("Authorization", "Bearer " ++ Py.str user_token);
     ("Content-Type", "application/json; charset=UTF-8")]
    (Some (PDict [("referrer", PStr (Py.str referral_id))])).

Definition account_delete (client : Client) (id token : pyval) : request :=
  mk_request DELETE (base_url client ++ "/reg/" ++ Py.str id)
    [("Authorization", "Bearer " ++ Py.str token)] None.

(** The license string carried by the first request of a run. *)
Definition first_license_sent (evs : list event) : option pyval :=
  match requests_of evs with
  | r :: _ =>
      match rq_json r with
      | Some body =>
          match Py.getitem body "license" with
          | Ok v => Some v
          | Err _ => None
          end
      | None => None
      end
  | [] => None
  end.

(** ** Relations between the world before and after a computation *)

(** [m] keeps [R]: whatever the world, [R] relates it to the world [m]
    leaves. *)
Definition keeps (R : world -> world -> Prop) {A} (m : M A) : Prop :=
  forall w, R w (exec m w).

(** The store is left as it was. *)
Definition same_file (w w' : world) : Prop := file w' = file w.

(** Events were only added, and none of them is a pacing mark. *)
Definition quiet (w w' : world) : Prop :=
  exists d, events w' = (events w ++ d)%list /\ pace_marks d = [].


(** Events were only added, and none of them is a request. *)
Definition offline (w w' : world) : Prop :=
  exists d, events w' = (events w ++ d)%list /\ requests_of d = [].

Definition verbs_of (evs : list event) : list verb := map rq_verb (requests_of evs).

(** [m] issues the requests [vs]: when it returns it has sent exactly these
    verbs in this order, and when it raises it has sent the first few of
    them. *)
Definition issues {A} (vs : list verb) (m : M A) : Prop :=
  forall w, exists d,
    events (exec m w) = (events w ++ d)%list
    /\ match fst (m w) with
       | Ok _ => verbs_of d = vs
       | Err _ => exists rest, vs = (verbs_of d ++ rest)%list
       end.

(** The requests of one complete iteration: the two registrations, the
    referrer link, the delete of the referral account, the probe and the
    revert, the read, the delete of the primary account. *)
Definition iteration_verbs : list verb :=
  [POST; POST; PATCH; DELETE; PUT; PUT; GET; DELETE].

(** ** Sentences of the specification, as predicates on runs *)

(** "The License Swapper issues exactly two license-update requests, the
    probe and then the revert carrying the original license." *)
Definition swap_always_reverts (keys : list pyval) (client : Client)
    (user_id initial_license user_token : pyval) (w : world) : Prop :=
  exists probe,
    requests_of
      (since w (exec (swap_license_keys keys client user_id initial_license
                        user_token) w))
    = [license_update client user_id user_token probe;
       license_update client user_id user_token (Py.str initial_license)].

(** "Whenever the eligibility predicate holds, the record appended equals
    {license: originalLicense, quota: state.quota}", the original license
    being the one captured at registration. *)
Definition persists_original_license (keys : list pyval) (client : Client)
    (w : world) : Prop :=
  forall lic rc fl wp q w6,
    acquires keys client w lic rc fl wp q w6 ->
    Py.truthy wp && Py.ne q (PInt 0) = true ->
    exists prior r,
      records (file (exec (generate_and_save_key keys client) w))
      = (prior ++ [r])%list
      /\ Py.eq r (PDict [("license", lic); ("quota", q)]) = true.

(** "If the configured candidate pool is empty, the program fails with a
    configuration error before any iteration starts and before any request
    is issued": the run ends in an exception and leaves the world as it
    was. *)
Definition aborts_before_start (KEYS : option string) (n : Z) (w : world) : Prop :=
  exists e, run_module KEYS n w = (Err e, w).

(** ** Sample runs *)

Module Demo.

Definition registration (id license token : string) : reply :=
  Response (Some (PDict [("id", PStr id);
                         ("account", PDict [("license", PStr license)]);
                         ("token", PStr token)])).

Definition account (license : string) (warp_plus : bool) (quota : Z) : reply :=
  Response (Some (PDict [("referral_count", PInt 1);
                         ("license", PStr license);
                         ("warp_plus", PBool warp_plus);
                         ("quota", PInt quota)])).

Definition no_content : reply := Response None.

Definition timed_out : reply := Raises (TransportError "timed out").

(** The remote end gives the replies of the list in turn, then times out. *)
Definition scripted (l : list reply) : nat -> reply :=
  fun n => nth n l timed_out.

Definition client : Client := create_http_client.

(** The pool as the module computes it from [KEYS=a,b]. *)
Definition keys : list pyval := [PList [PStr "a"; PStr "b"]].

(** One iteration in which every request is answered; the account is
    registered with license [A] and read back, entitled, with license [B]. *)
Definition answered : list reply :=
  [registration "u1" "A" "t1"; registration "r1" "X" "t2";
   no_content; no_content; no_content; no_content;
   account "B" true 3000; no_content].

(** One iteration in which the read of the account state times out. *)
Definition read_fails : list reply :=
  [registration "u2" "C" "t3"; registration "r2" "Y" "t4";
   no_content; no_content; no_content; no_content; timed_out].

Definition start (l : list reply) (s : store) : world :=
  mk_world [] (scripted l) (fun _ => 7) s.

Definition w_answered : world := start answered Absent.

(** The worlds [w_answered] goes through, stage after stage. *)
Definition w_registered : world := exec (register_user client) w_answered.
Definition w_referred : world := exec (register_referral_user client) w_registered.
Definition w_linked : world :=
  exec (add_referral_and_delete client (PStr "u1") (PStr "t1") (PStr "r1")
          (PStr "t2")) w_referred.
Definition w_swapped : world :=
  exec (swap_license_keys keys client (PStr "u1") (PStr "A") (PStr "t1")) w_linked.
Definition w_read : world :=
  exec (get_updated_user_info client (PStr "u1") (PStr "t1")) w_swapped.
Definition w_disposed : world :=
  exec (delete_user client (PStr "u1") (PStr "t1")) w_read.



(** A remote end that never answers. *)
Definition w_silent : world := start [] Absent.

(** Three iterations, the read of the second one failing. *)
Definition w_batch : world := start (answered ++ read_fails ++ answered)%list Absent.

(** The record of the sample iteration. *)
Definition record : pyval := PDict [("Quota", PInt 3000); ("license", PStr "B")].

(** A key file that holds an empty array written as an opening bracket, 200
    spaces and a closing bracket: 202 bytes, none of them whitespace at the
    end. *)
Definition padded_empty : store := Present (Some (PList [])) 202 0.

Definition saved (evs : list event) : list event :=
  filter (fun e => match e with
                   | EvInfo msg => String.prefix "Key successfully saved: " msg
                   | _ => false
                   end) evs.

End Demo.

(** ** Further readings of a run *)

(** Events were only added, and each of them satisfies [P]. *)
Definition adds (P : event -> bool) (w w' : world) : Prop :=
  exists d, events w' = (events w ++ d)%list /\ forallb P d = true.

Definition saved_prefix : string := "Key successfully saved: ".

Definition is_saved_line (e : event) : bool :=
  match e with
  | EvInfo msg => String.prefix saved_prefix msg
  | _ => false
  end.

(** The lines by which [save_key_to_file] reports a stored key. *)
Definition saved_lines (evs : list event) : list event := filter is_saved_line evs.

(** The line logged for the stored record [r]. *)
Definition saved_line (r : pyval) : event :=
  EvInfo (saved_prefix ++ match Py.getitem r "license" with
                          | Ok license => Py.str license
                          | Err _ => EmptyString
                          end).

(** The store went on taking appends, the records it held are still there
    in front, and every record added since was reported by its line in the
    log, in the same order. *)
Definition accrues (w w' : world) : Prop :=
  rewritable (file w) = true ->
  rewritable (file w') = true
  /\ exists d added,
       events w' = (events w ++ d)%list
       /\ records (file w') = (records (file w) ++ added)%list
       /\ saved_lines d = map saved_line added.

(** The six network stages of [generate_and_save_key], lines 246 to 258, in
    sequence, giving what the iteration holds when it reaches the persist
    decision. *)
Definition acquire (keys : list pyval) (client : Client)
    : M (pyval * pyval * pyval * pyval * pyval) :=
  '(user_id, initial_license, user_token) <- register_user client ;;
  '(referral_id, referral_token) <- register_referral_user client ;;
  add_referral_and_delete client user_id user_token referral_id referral_token ;;
  swap_license_keys keys client user_id initial_license user_token ;;
  '(referral_count, final_license, warp_plus, quota) <-
     get_updated_user_info client user_id user_token ;;
  delete_user client user_id user_token ;;
  ret (initial_license, referral_count, final_license, warp_plus, quota).

(** The persist decision of [generate_and_save_key], lines 260 and 261. *)
Definition persist (st : pyval * pyval * pyval * pyval * pyval) : M unit :=
  let '(_, _, final_license, warp_plus, quota) := st in
  if Py.truthy warp_plus && Py.ne quota (PInt 0)
  then save_key_to_file (PDict [("Quota", quota); ("license", final_license)])
  else ret tt.

(** A reply with its body forgotten: only whether the call raised is left. *)
Definition blank (r : reply) : reply :=
  match r with
  | Raises e => Raises e
  | Response _ => Response None
  end.

Definition blanked (w : world) : world :=
  mk_world (events w) (fun n => blank (replies w n)) (randoms w) (file w).

(** The request of both registrations. *)
Definition registration_request (client : Client) : request :=
  mk_request POST (base_url client ++ "/reg") [] None.

Definition account_read (client : Client) (user_id user_token : pyval) : request :=
  mk_request GET (base_url client ++ "/reg/" ++ Py.str user_id ++ "/account")
    [("Authorization", "Bearer " ++ Py.str user_token)] None.

Fixpoint lookup_header (name : string) (hdrs : list (string * string))
    : option string :=
  match hdrs with
  | [] => None
  | (k, v) :: rest => if String.eqb name k then Some v else lookup_header name rest
  end.

(** A call as the script makes them: on the client, with a path that
    begins with [/reg], and, unless it is a registration, with a bearer
    token in the [Authorization] header it passes. *)
Definition to_registry (client : Client) (r : request) : bool :=
  String.prefix (base_url client ++ "/reg") (rq_url r)
  && match rq_verb r with
     | POST => true
     | _ =>
         match lookup_header "Authorization" (rq_headers r) with
         | Some v => String.prefix "Bearer " v
         | None => false
         end
     end.

Definition registry_event (client : Client) (e : event) : bool :=
  match e with
  | EvHttp r => to_registry client r
  | _ => true
  end.

(** The verbs of a batch: for each iteration the first [k] verbs of
    [iteration_verbs], [k] being taken from [ks]. *)
Definition batch_verbs (ks : list nat) : list verb :=
  List.concat (map (fun k => firstn k iteration_verbs) ks).

(** The saved keys of a run are no more than its iterations, and the store
    holds no more new records than that. *)
Definition no_more_saved_than_started (w w' : world) : Prop :=
  exists d,
    events w' = (events w ++ d)%list
    /\ List.length (saved_lines d) <= List.length (filter is_iteration_start d)
    /\ List.length (records (file w'))
       <= List.length (records (file w))
          + List.length (filter is_iteration_start d).

(** A sample iteration answered with loosely typed account fields: the
    premium flag is the number 1 and the quota is [null]. *)
Module Loose.

Definition account : reply :=
  Response (Some (PDict [("referral_count", PNone);
                         ("license", PStr "B");
                         ("warp_plus", PInt 1);
                         ("quota", PNone)])).

Definition answered : list reply :=
  [Demo.registration "u1" "A" "t1"; Demo.registration "r1" "X" "t2";
   Demo.no_content; Demo.no_content; Demo.no_content; Demo.no_content;
   account; Demo.no_content].

Definition w_answered : world := Demo.start answered Absent.
Definition w_registered : world := exec (register_user Demo.client) w_answered.
Definition w_referred : world :=
  exec (register_referral_user Demo.client) w_registered.
Definition w_linked : world :=
  exec (add_referral_and_delete Demo.client (PStr "u1") (PStr "t1") (PStr "r1")
          (PStr "t2")) w_referred.
Definition w_swapped : world :=
  exec (swap_license_keys Demo.keys Demo.client (PStr "u1") (PStr "A") (PStr "t1"))
    w_linked.
Definition w_read : world :=
  exec (get_updated_user_info Demo.client (PStr "u1") (PStr "t1")) w_swapped.
Definition w_disposed : world :=
  exec (delete_user Demo.client (PStr "u1") (PStr "t1")) w_read.

End Loose.

(** A sample iteration in which every request is answered and the account is
    read back entitled, but the delete of the primary account, the eighth
    request, times out. *)
Module Undisposed.

Definition answered : list reply :=
  [Demo.registration "u1" "A" "t1"; Demo.registration "r1" "X" "t2";
   Demo.no_content; Demo.no_content; Demo.no_content; Demo.no_content;
   Demo.account "B" true 3000; Demo.timed_out].

Definition w_answered : world := Demo.start answered Absent.
Definition w_registered : world := exec (register_user Demo.client) w_answered.
Definition w_referred : world :=
  exec (register_referral_user Demo.client) w_registered.
Definition w_linked : world :=
  exec (add_referral_and_delete Demo.client (PStr "u1") (PStr "t1") (PStr "r1")
          (PStr "t2")) w_referred.
Definition w_swapped : world :=
  exec (swap_license_keys Demo.keys Demo.client (PStr "u1") (PStr "A") (PStr "t1"))
    w_linked.
Definition w_read : world :=
  exec (get_updated_user_info Demo.client (PStr "u1") (PStr "t1")) w_swapped.
Definition w_dispose_raised : world :=
  exec (delete_user Demo.client (PStr "u1") (PStr "t1")) w_read.

End Undisposed.

(** Two worlds that may differ in their store and in what was logged, but
    not in the requests sent so far, in the replies to come or in the
    numbers the generator will return. *)
Definition same_traffic (w w' : world) : Prop :=
  requests_of (events w) = requests_of (events w')
  /\ (forall n, replies w n = replies w' n)
  /\ (forall n, randoms w n = randoms w' n).

(** [m] does not let the store or the log decide its result or its
    requests. *)
Definition store_blind {A} (m : M A) : Prop :=
  forall w w',
    same_traffic w w' ->
    fst (m w) = fst (m w') /\ same_traffic (exec m w) (exec m w').

(** * Properties *)

(** ** The Python primitives on samples *)

Example split_two : PyStr.split ","%char "a,b" = ["a"; "b"].
Proof. reflexivity. Qed.

Example split_keeps_empty_fields :
  PyStr.split ","%char "a,,b," = ["a"; EmptyString; "b"; EmptyString].
Proof. reflexivity. Qed.

Example split_of_empty : PyStr.split ","%char EmptyString = [EmptyString].
Proof. reflexivity. Qed.

Example str_of_list : Py.str (PList [PStr "a"; PStr "b"]) = "['a', 'b']".
Proof. reflexivity. Qed.

Example str_of_record :
  Py.str (PDict [("Quota", PInt 3000); ("license", PStr "B")])
  = "{'Quota': 3000, 'license': 'B'}".
Proof. reflexivity. Qed.

Example repr_escapes : PyStr.repr "a\b" = "'a\\b'".
Proof. reflexivity. Qed.

Example eq_ignores_field_order :
  Py.eq (PDict [("Quota", PInt 1); ("license", PStr "B")])
        (PDict [("license", PStr "B"); ("Quota", PInt 1)]) = true.
Proof. reflexivity. Qed.

Example eq_bool_int : Py.ne (PBool false) (PInt 0) = false.
Proof. reflexivity. Qed.

(** ** Events of a run *)

Lemma since_app (w w' : world) (d : list event) :
  events w' = (events w ++ d)%list -> since w w' = d.
Proof.
  unfold since. intros ->.
  rewrite skipn_app, skipn_all, Nat.sub_diag. reflexivity.
Qed.

Lemma requests_of_app (a b : list event) :
  requests_of (a ++ b) = (requests_of a ++ requests_of b)%list.
Proof.
  induction a as [|e a IH]; [reflexivity|].
  destruct e; simpl; rewrite IH; reflexivity.
Qed.

Lemma pace_marks_app (a b : list event) :
  pace_marks (a ++ b) = (pace_marks a ++ pace_marks b)%list.
Proof. apply filter_app. Qed.

(** A run without pacing marks has no delay in it. *)
Lemma sleeps_of_marks (evs : list event) :
  sleeps (pace_marks evs) = sleeps evs.
Proof.
  induction evs as [|e evs IH]; [reflexivity|].
  unfold sleeps, pace_marks in *. simpl.
  destruct (is_iteration_start e) eqn:Hs, (is_sleep e) eqn:Hp; simpl;
    rewrite ?Hp, IH; reflexivity.
Qed.

(** ** Frame rules

    A relation between the world before and after a computation that is
    reflexive and transitive is kept by [ret], [raise], [bind] and
    [try_except] as soon as the parts keep it. *)

Section Frames.

Variable R : world -> world -> Prop.
Hypothesis R_refl : forall w, R w w.
Hypothesis R_trans : forall a b c, R a b -> R b c -> R a c.

Lemma keeps_ret {A} (a : A) : keeps R (ret a).
Proof using R_refl. intros w. apply R_refl. Qed.

Lemma keeps_raise {A} (e : exn) : keeps R (@raise A e).
Proof using R_refl. intros w. apply R_refl. Qed.

Lemma keeps_lift {A} (r : result A) : keeps R (lift r).
Proof using R_refl. intros w. apply R_refl. Qed.

Lemma keeps_bind {A B} (m : M A) (k : A -> M B) :
  keeps R m -> (forall a, keeps R (k a)) -> keeps R (bind m k).
Proof using R_trans.
  intros Hm Hk w. unfold exec, bind.
  specialize (Hm w). unfold exec in Hm.
  destruct (m w) as [[a|e] w1]; simpl in *; [|exact Hm].
  eapply R_trans; [exact Hm|]. apply Hk.
Qed.

Lemma keeps_try {A} (body : M A) (handler : exn -> M A) :
  keeps R body -> (forall e, keeps R (handler e)) -> keeps R (try_except body handler).
Proof using R_trans.
  intros Hm Hk w. unfold exec, try_except.
  specialize (Hm w). unfold exec in Hm.
  destruct (body w) as [[a|e] w1]; simpl in *; [exact Hm|].
  eapply R_trans; [exact Hm|]. apply Hk.
Qed.

End Frames.

Lemma same_file_refl w : same_file w w.
Proof. reflexivity. Qed.

Lemma same_file_trans a b c : same_file a b -> same_file b c -> same_file a c.
Proof. unfold same_file. congruence. Qed.

Lemma quiet_refl w : quiet w w.
Proof. exists []. rewrite app_nil_r. auto. Qed.

Lemma quiet_trans a b c : quiet a b -> quiet b c -> quiet a c.
Proof.
  intros [d1 [E1 M1]] [d2 [E2 M2]]. exists (d1 ++ d2)%list. split.
  - rewrite E2, E1, app_assoc. reflexivity.
  - rewrite pace_marks_app, M1, M2. reflexivity.
Qed.

Lemma offline_refl w : offline w w.
Proof. exists []. rewrite app_nil_r. auto. Qed.

Lemma offline_trans a b c : offline a b -> offline b c -> offline a c.
Proof.
  intros [d1 [E1 M1]] [d2 [E2 M2]]. exists (d1 ++ d2)%list. split.
  - rewrite E2, E1, app_assoc. reflexivity.
  - rewrite requests_of_app, M1, M2. reflexivity.
Qed.

(** ** What the primitives keep *)

Create HintDb frames.

Lemma quiet_emit (e : event) :
  is_iteration_start e || is_sleep e = false -> keeps quiet (emit e).
Proof.
  intros H w. exists [e]. split; [reflexivity|].
  unfold pace_marks. simpl. rewrite H. reflexivity.
Qed.

Lemma quiet_error (msg : string) (e : exn) : keeps quiet (logging.error msg e).
Proof. apply quiet_emit. reflexivity. Qed.

Lemma quiet_send client v path hdrs body :
  keeps quiet (httpx.send client v path hdrs body).
Proof.
  intros w. exists [EvHttp (mk_request v (base_url client ++ path) hdrs body)].
  split; [|reflexivity].
  unfold exec, httpx.send. destruct (replies w 0); reflexivity.
Qed.

Lemma quiet_json r : keeps quiet (httpx.json r).
Proof. destruct r; intros w; apply quiet_refl. Qed.

Lemma quiet_choice {A} (l : list A) : keeps quiet (random.choice l).
Proof.
  intros w. exists []. rewrite app_nil_r. split; [|reflexivity].
  unfold exec, random.choice. destruct l; [reflexivity|].
  destruct (nth_error _ _); reflexivity.
Qed.

Lemma quiet_exists : keeps quiet os_path.exists_.
Proof. intros w. apply quiet_refl. Qed.

Lemma quiet_set_file s : keeps quiet (set_file s).
Proof. intros w. exists []. rewrite app_nil_r. split; reflexivity. Qed.

Lemma quiet_load : keeps quiet json.load.
Proof.
  intros w. unfold exec, json.load.
  destruct (file w) as [|[v|] size padding]; apply quiet_refl.
Qed.

Lemma dump_events v indent fp w :
  events (exec (json.dump v indent fp) w) = events w.
Proof.
  unfold exec, json.dump, set_file.
  destruct fp, (file w); reflexivity.
Qed.

Lemma quiet_dump v indent fp : keeps quiet (json.dump v indent fp).
Proof.
  intros w. exists []. rewrite app_nil_r. split; [apply dump_events|reflexivity].
Qed.

Lemma quiet_append data x : keeps quiet (append data x).
Proof. destruct data; intros w; apply quiet_refl. Qed.

Lemma same_file_emit (e : event) : keeps same_file (emit e).
Proof. intros w. reflexivity. Qed.

Lemma same_file_send client v path hdrs body :
  keeps same_file (httpx.send client v path hdrs body).
Proof.
  intros w. unfold exec, httpx.send. destruct (replies w 0); reflexivity.
Qed.

Lemma same_file_json r : keeps same_file (httpx.json r).
Proof. destruct r; intros w; reflexivity. Qed.

Lemma same_file_choice {A} (l : list A) : keeps same_file (random.choice l).
Proof.
  intros w. unfold exec, random.choice. destruct l; [reflexivity|].
  destruct (nth_error _ _); reflexivity.
Qed.

#[local] Hint Resolve quiet_error quiet_send quiet_json quiet_choice quiet_exists
  quiet_set_file quiet_load quiet_dump quiet_append : frames.
#[local] Hint Resolve same_file_emit same_file_send same_file_json
  same_file_choice : frames.
#[local] Hint Extern 1 (keeps quiet (logging.info _)) =>
  apply quiet_emit; reflexivity : frames.
#[local] Hint Extern 1 (keeps quiet (emit _)) =>
  apply quiet_emit; reflexivity : frames.

(** One step through a computation built from [bind], [try_except],
    pattern matching on a tuple and [if]. *)
Ltac frame_step refl trans :=
  first
    [ apply (keeps_ret _ refl)
    | apply (keeps_raise _ refl)
    | apply (keeps_lift _ refl)
    | apply (keeps_bind _ trans); [|intros ?]
    | apply (keeps_try _ trans); [|intros ?]
    | match goal with
      | |- keeps _ (match ?x with _ => _ end) => destruct x
      end
    | solve [unfold httpx.post, httpx.patch, httpx.put, httpx.get, httpx.delete,
               logging.info, logging.error, time.sleep;
             auto with frames] ].

Ltac quiet_frame := repeat frame_step quiet_refl quiet_trans.
Ltac file_frame := repeat frame_step same_file_refl same_file_trans.

(** ** What the functions of main.py keep *)

Lemma quiet_save_key_to_file key_info : keeps quiet (save_key_to_file key_info).
Proof. unfold save_key_to_file. quiet_frame. Qed.

Lemma quiet_register_user client : keeps quiet (register_user client).
Proof. unfold register_user. quiet_frame. Qed.

Lemma quiet_register_referral_user client :
  keeps quiet (register_referral_user client).
Proof. unfold register_referral_user. quiet_frame. Qed.

Lemma quiet_add_referral_and_delete client uid tok rid rtok :
  keeps quiet (add_referral_and_delete client uid tok rid rtok).
Proof. unfold add_referral_and_delete. quiet_frame. Qed.

Lemma quiet_swap_license_keys keys client uid lic tok :
  keeps quiet (swap_license_keys keys client uid lic tok).
Proof. unfold swap_license_keys. quiet_frame. Qed.

Lemma quiet_get_updated_user_info client uid tok :
  keeps quiet (get_updated_user_info client uid tok).
Proof. unfold get_updated_user_info. quiet_frame. Qed.

Lemma quiet_delete_user client uid tok : keeps quiet (delete_user client uid tok).
Proof. unfold delete_user. quiet_frame. Qed.

#[local] Hint Resolve quiet_save_key_to_file quiet_register_user
  quiet_register_referral_user quiet_add_referral_and_delete
  quiet_swap_license_keys quiet_get_updated_user_info quiet_delete_user : frames.

Lemma quiet_generate_and_save_key keys client :
  keeps quiet (generate_and_save_key keys client).
Proof. unfold generate_and_save_key. quiet_frame. Qed.

Lemma same_file_register_user client : keeps same_file (register_user client).
Proof. unfold register_user. file_frame. Qed.

Lemma same_file_register_referral_user client :
  keeps same_file (register_referral_user client).
Proof. unfold register_referral_user. file_frame. Qed.

Lemma same_file_add_referral_and_delete client uid tok rid rtok :
  keeps same_file (add_referral_and_delete client uid tok rid rtok).
Proof. unfold add_referral_and_delete. file_frame. Qed.

Lemma same_file_swap_license_keys keys client uid lic tok :
  keeps same_file (swap_license_keys keys client uid lic tok).
Proof. unfold swap_license_keys. file_frame. Qed.

Lemma same_file_get_updated_user_info client uid tok :
  keeps same_file (get_updated_user_info client uid tok).
Proof. unfold get_updated_user_info. file_frame. Qed.

Lemma same_file_delete_user client uid tok :
  keeps same_file (delete_user client uid tok).
Proof. unfold delete_user. file_frame. Qed.

(** ** The iteration boundary *)

Lemma bind_ok {A B} (m : M A) (k : A -> M B) w a w1 :
  m w = (Ok a, w1) -> bind m k w = k a w1.
Proof. unfold bind. intros ->. reflexivity. Qed.

Lemma try_except_caught {A} (body : M A) (handler : exn -> M A) w e w1 :
  body w = (Err e, w1) -> try_except body handler w = handler e w1.
Proof. unfold try_except. intros ->. reflexivity. Qed.

Lemma try_logged_returns (body : M unit) (msg : string) w :
  fst (try_except body (fun e => logging.error msg e) w) = Ok tt.
Proof.
  unfold try_except. destruct (body w) as [[[]|e] w1]; reflexivity.
Qed.

(** Whatever the replies, an iteration returns normally. *)
Lemma generate_and_save_key_returns keys client w :
  fst (generate_and_save_key keys client w) = Ok tt.
Proof. unfold generate_and_save_key. apply try_logged_returns. Qed.

Lemma save_key_to_file_returns key_info w :
  fst (save_key_to_file key_info w) = Ok tt.
Proof. unfold save_key_to_file. apply try_logged_returns. Qed.

(** An error of a stage reaches the [except] clause of the iteration, which
    logs it and returns. *)
Lemma generate_and_save_key_catches keys client w e w1 :
  stage_error keys client w e w1 ->
  generate_and_save_key keys client w
  = (Ok tt, exec (logging.error "Error during HTTP request processing: " e) w1).
Proof.
  intros H. unfold generate_and_save_key.
  erewrite try_except_caught; [reflexivity|].
  unfold bind.
  destruct H;
    repeat match goal with
           | st : (_ * _ * _ * _)%type |- _ => destruct st as [[[? ?] ?] ?]
           | H : ?m = (_, _) |- _ => rewrite H; clear H
           end;
    reflexivity.
Qed.

(** When the six network stages return, the iteration ends in the persist
    decision. *)
Lemma generate_and_save_key_decides keys client w lic rc fl wp q w6 :
  acquires keys client w lic rc fl wp q w6 ->
  generate_and_save_key keys client w
  = if Py.truthy wp && Py.ne q (PInt 0)
    then save_key_to_file (PDict [("Quota", q); ("license", fl)]) w6
    else (Ok tt, w6).
Proof.
  intros (uid & tok & rid & rtok & w1 & w2 & w3 & w4 & w5 &
          H1 & H2 & H3 & H4 & H5 & H6).
  unfold generate_and_save_key, try_except, bind.
  rewrite H1, H2, H3, H4, H5, H6.
  destruct (Py.truthy wp && Py.ne q (PInt 0)); [|reflexivity].
  pose proof (save_key_to_file_returns (PDict [("Quota", q); ("license", fl)]) w6) as R.
  destruct (save_key_to_file _ w6) as [[[]|e] w7]; simpl in R; [reflexivity|discriminate].
Qed.

(** The network stages leave the store alone. *)
Lemma acquires_same_file keys client w lic rc fl wp q w6 :
  acquires keys client w lic rc fl wp q w6 -> file w6 = file w.
Proof.
  intros (uid & tok & rid & rtok & w1 & w2 & w3 & w4 & w5 &
          H1 & H2 & H3 & H4 & H5 & H6).
  pose proof (same_file_register_user client w) as F1.
  pose proof (same_file_register_referral_user client w1) as F2.
  pose proof (same_file_add_referral_and_delete client uid tok rid rtok w2) as F3.
  pose proof (same_file_swap_license_keys keys client uid lic tok w3) as F4.
  pose proof (same_file_get_updated_user_info client uid tok w4) as F5.
  pose proof (same_file_delete_user client uid tok w5) as F6.
  unfold same_file, exec in *.
  rewrite H1 in F1. rewrite H2 in F2. rewrite H3 in F3.
  rewrite H4 in F4. rewrite H5 in F5. rewrite H6 in F6.
  simpl in *. congruence.
Qed.

(** ** The batch loop *)

Lemma prefix_append (s t : string) : String.prefix s (s ++ t) = true.
Proof.
  induction s as [|c s IH]; simpl.
  - destruct t; reflexivity.
  - destruct (ascii_dec c c) as [_|N]; [exact IH|contradiction].
Qed.

Lemma iteration_start_is_mark i : is_iteration_start (iteration_start i) = true.
Proof. apply prefix_append. Qed.

(** One turn of the loop of [main]: the start is logged, the iteration adds
    events that are no pacing marks and returns, and a delay of 45 follows
    unless the index is the last one. *)
Lemma loop_turn keys client n i w :
  exists d w',
    pace_marks d = []
    /\ (logging.info (start_prefix ++ Py.str (PInt (i + 1))) ;;
        generate_and_save_key keys client ;;
        apply_delay_if_needed i n) w = (Ok tt, w')
    /\ events w'
       = (events w ++ iteration_start i :: d
            ++ (if (i =? n - 1)%Z then [] else [EvSleep 45]))%list.
Proof.
  unfold bind at 1. unfold logging.info at 1. unfold emit at 1.
  set (w1 := mk_world _ _ _ _).
  pose proof (generate_and_save_key_returns keys client w1) as R.
  destruct (quiet_generate_and_save_key keys client w1) as [d [E Q]].
  exists d.
  unfold bind, exec in *.
  destruct (generate_and_save_key keys client w1) as [[[]|e] w2] eqn:G;
    simpl in R; [|discriminate].
  simpl in E.
  unfold apply_delay_if_needed, time.sleep, emit, ret.
  destruct (i =? n - 1)%Z; simpl; eexists; (split; [exact Q|]);
    (split; [reflexivity|]); simpl; rewrite E; unfold iteration_start;
    rewrite <- ?app_assoc; simpl; rewrite ?app_nil_r; reflexivity.
Qed.

Lemma pace_marks_start i evs :
  pace_marks (iteration_start i :: evs) = iteration_start i :: pace_marks evs.
Proof.
  unfold pace_marks. cbn [filter].
  rewrite iteration_start_is_mark. reflexivity.
Qed.

(** The loop of [main] over the indices [a, a+1, ..., n-1]: it returns, and
    its pacing skeleton is [paced]. *)
Lemma loop_run keys client n :
  forall len a w,
    (len <> 0 -> (Z.of_nat a + Z.of_nat len = n)%Z) ->
    exists d w',
      for_each (map Z.of_nat (seq a len))
        (fun i =>
           logging.info (start_prefix ++ Py.str (PInt (i + 1))) ;;
           generate_and_save_key keys client ;;
           apply_delay_if_needed i n) w = (Ok tt, w')
      /\ events w' = (events w ++ d)%list
      /\ pace_marks d = paced (map Z.of_nat (seq a len)).
Proof.
  induction len as [|len IH]; intros a w Hn.
  - exists [], w. rewrite app_nil_r. repeat split.
  - cbn [seq map for_each].
    destruct (loop_turn keys client n (Z.of_nat a) w) as (d1 & w1 & Q1 & R1 & E1).
    assert (Ha : (Z.of_nat a + Z.of_nat (S len) = n)%Z) by (apply Hn; discriminate).
    destruct (IH (S a) w1 ltac:(lia)) as (d2 & w2 & R2 & E2 & P2).
    exists (iteration_start (Z.of_nat a) :: d1
              ++ (if (Z.of_nat a =? n - 1)%Z then [] else [EvSleep 45]) ++ d2)%list, w2.
    split; [|split].
    + unfold bind at 1. rewrite R1. exact R2.
    + rewrite E2, E1. rewrite <- !app_assoc. simpl. rewrite <- !app_assoc. reflexivity.
    + rewrite pace_marks_start, !pace_marks_app, Q1, P2. cbn [paced app].
      destruct len as [|len].
      * replace (Z.of_nat a =? n - 1)%Z with true by (symmetry; apply Z.eqb_eq; lia).
        reflexivity.
      * replace (Z.of_nat a =? n - 1)%Z with false by (symmetry; apply Z.eqb_neq; lia).
        reflexivity.
Qed.

Lemma length_sleeps_paced (idxs : list Z) :
  List.length (sleeps (paced idxs)) = pred (List.length idxs).
Proof.
  induction idxs as [|i rest IH]; [reflexivity|].
  cbn [paced]. destruct rest as [|j rest]; [reflexivity|].
  set (tl := j :: rest) in *.
  change (S (List.length (sleeps (paced tl))) = List.length tl).
  rewrite IH. reflexivity.
Qed.

Lemma last_paced (idxs : list Z) (dflt : event) :
  idxs <> [] -> is_sleep (last (paced idxs) dflt) = false.
Proof.
  induction idxs as [|i rest IH]; [congruence|]. intros _.
  cbn [paced]. destruct rest as [|j rest]; [reflexivity|].
  set (tl := j :: rest) in *.
  assert (Hne : paced tl <> []) by (subst tl; cbn [paced]; destruct rest; discriminate).
  destruct (paced tl) as [|e l] eqn:P; [congruence|].
  apply IH. subst tl. discriminate.
Qed.

(** The last pacing mark of a run that ends in a delay is that delay. *)
Lemma last_pace_marks (evs : list event) (dflt : event) :
  is_sleep (last evs dflt) = true -> evs <> [] ->
  last (pace_marks evs) dflt = last evs dflt.
Proof.
  intros Hs Hne.
  destruct (exists_last Hne) as (pre & e & ->).
  rewrite last_last in *. rewrite pace_marks_app.
  unfold pace_marks at 2. cbn [filter]. rewrite Hs, orb_true_r.
  apply last_last.
Qed.

Lemma length_range n : List.length (range n) = Z.to_nat n.
Proof. unfold range. rewrite length_map, length_seq. reflexivity. Qed.

(** [main] as a whole: it returns, and after the welcome line its pacing
    skeleton is [paced (range n)]. *)
Lemma main_run keys n w :
  exists d,
    fst (main keys n w) = Ok tt
    /\ since w (exec (main keys n) w)
       = EvInfo "Welcome to the Warp+ key generator" :: d
    /\ pace_marks d = paced (range n).
Proof.
  pose (w1 := exec (logging.info "Welcome to the Warp+ key generator") w).
  destruct (loop_run keys create_http_client n (Z.to_nat n) 0 w1 ltac:(lia))
    as (d & w2 & R & E & P).
  assert (Hm : main keys n w = (Ok tt, w2)) by exact R.
  exists d. unfold exec. rewrite Hm. split; [reflexivity|]. split; [|exact P].
  apply since_app. cbn [snd]. rewrite E. subst w1. cbn.
  rewrite <- app_assoc. reflexivity.
Qed.

Lemma starts_of_marks (evs : list event) :
  filter is_iteration_start (pace_marks evs) = filter is_iteration_start evs.
Proof.
  induction evs as [|e evs IH]; [reflexivity|].
  unfold pace_marks in *. simpl.
  destruct (is_iteration_start e) eqn:Hs, (is_sleep e) eqn:Hp; simpl;
    rewrite ?Hs, IH; reflexivity.
Qed.

Lemma starts_of_paced (idxs : list Z) :
  filter is_iteration_start (paced idxs) = map iteration_start idxs.
Proof.
  induction idxs as [|i rest IH]; [reflexivity|].
  cbn [paced map]. destruct rest as [|j rest].
  - cbn [filter map]. rewrite iteration_start_is_mark. reflexivity.
  - set (tl := j :: rest) in *. cbn [filter].
    rewrite iteration_start_is_mark. cbn [is_iteration_start].
    rewrite IH. reflexivity.
Qed.

Lemma range_nonempty n : (1 <= n)%Z -> range n <> [].
Proof.
  intros H E. apply (f_equal (@List.length Z)) in E.
  rewrite length_range in E. simpl in E. lia.
Qed.

(** ** The batch: fault isolation and pacing *)


(** C6. For a batch of [n >= 1] iterations there are exactly [n - 1] pacing
    delays. The iteration starts and the delays of the run alternate:
    start, delay of 45, start, ..., start, so that each iteration but the
    last is followed by one delay and the run does not end in a delay. For
    [n = 1] the right-hand side [n - 1] is zero. *)
Theorem pacing_delays (keys : list pyval) (n : Z) (w : world) :
  (1 <= n)%Z ->
  Z.of_nat (List.length (sleeps (since w (exec (main keys n) w)))) = (n - 1)%Z
  /\ pace_marks (since w (exec (main keys n) w)) = paced (range n)
  /\ is_sleep (last (since w (exec (main keys n) w)) (EvInfo EmptyString)) = false.
Proof.
  intros Hn.
  destruct (main_run keys n w) as (d & R & E & P).
  assert (M : pace_marks (since w (exec (main keys n) w)) = paced (range n)).
  { rewrite E. exact P. }
  split; [|split].
  - rewrite <- sleeps_of_marks, M, length_sleeps_paced, length_range. lia.
  - exact M.
  - destruct (is_sleep (last _ _)) eqn:L; [|reflexivity].
    pose proof (last_pace_marks _ (EvInfo EmptyString) L) as Q.
    rewrite E in Q at 1. specialize (Q ltac:(discriminate)).
    rewrite M in Q. rewrite <- Q in L.
    rewrite (last_paced _ _ (range_nonempty n Hn)) in L. discriminate.
Qed.

(** ** The order of the requests of an iteration *)

Lemma offline_emit (e : event) : requests_of [e] = [] -> keeps offline (emit e).
Proof. intros H w. exists [e]. split; [reflexivity|exact H]. Qed.

Lemma offline_json r : keeps offline (httpx.json r).
Proof. destruct r; intros w; apply offline_refl. Qed.

Lemma offline_choice {A} (l : list A) : keeps offline (random.choice l).
Proof.
  intros w. exists []. rewrite app_nil_r. split; [|reflexivity].
  unfold exec, random.choice. destruct l; [reflexivity|].
  destruct (nth_error _ _); reflexivity.
Qed.

Lemma offline_exists : keeps offline os_path.exists_.
Proof. intros w. apply offline_refl. Qed.

Lemma offline_set_file s : keeps offline (set_file s).
Proof. intros w. exists []. rewrite app_nil_r. split; reflexivity. Qed.

Lemma offline_load : keeps offline json.load.
Proof.
  intros w. unfold exec, json.load.
  destruct (file w) as [|[v|] size padding]; apply offline_refl.
Qed.

Lemma offline_dump v indent fp : keeps offline (json.dump v indent fp).
Proof.
  intros w. exists []. rewrite app_nil_r. split; [apply dump_events|reflexivity].
Qed.

Lemma offline_append data x : keeps offline (append data x).
Proof. destruct data; intros w; apply offline_refl. Qed.

#[local] Hint Resolve offline_json offline_choice offline_exists offline_set_file
  offline_load offline_dump offline_append : frames.
#[local] Hint Extern 1 (keeps offline (emit _)) =>
  apply offline_emit; reflexivity : frames.

Ltac offline_frame := repeat frame_step offline_refl offline_trans.

Lemma offline_save_key_to_file key_info : keeps offline (save_key_to_file key_info).
Proof. unfold save_key_to_file. offline_frame. Qed.

(** A computation that sends nothing issues the empty list of requests. *)
Lemma issues_offline {A} (m : M A) : keeps offline m -> issues [] m.
Proof.
  intros H w. destruct (H w) as (d & E & Q). exists d. split; [exact E|].
  unfold verbs_of. rewrite Q. destruct (fst (m w)); [reflexivity|].
  exists []. reflexivity.
Qed.

Lemma issues_send client v path hdrs body :
  issues [v] (httpx.send client v path hdrs body).
Proof.
  intros w. exists [EvHttp (mk_request v (base_url client ++ path) hdrs body)].
  unfold exec, httpx.send. destruct (replies w 0); (split; [reflexivity|]).
  - exists []. reflexivity.
  - reflexivity.
Qed.

Lemma verbs_of_app (a b : list event) :
  verbs_of (a ++ b) = (verbs_of a ++ verbs_of b)%list.
Proof. unfold verbs_of. rewrite requests_of_app. apply map_app. Qed.

(** Sequencing: the requests of [m], then those of the continuation. *)
Lemma issues_bind {A B} (vs v1 v2 : list verb) (m : M A) (k : A -> M B) :
  issues v1 m -> (forall a, issues v2 (k a)) -> vs = (v1 ++ v2)%list ->
  issues vs (bind m k).
Proof.
  intros Hm Hk -> w. destruct (Hm w) as (d1 & E1 & V1).
  unfold exec, bind in *.
  destruct (m w) as [[a|e] w1]; cbn [fst snd] in *.
  - destruct (Hk a w1) as (d2 & E2 & V2). unfold exec in E2.
    exists (d1 ++ d2)%list. split.
    + rewrite E2, E1, app_assoc. reflexivity.
    + rewrite verbs_of_app, V1.
      destruct (fst (k a w1)); [rewrite V2; reflexivity|].
      destruct V2 as [rest ->]. exists rest. rewrite app_assoc. reflexivity.
  - exists d1. split; [exact E1|].
    destruct V1 as [rest ->]. exists (rest ++ v2)%list.
    rewrite app_assoc. reflexivity.
Qed.

Ltac issues_step :=
  first
    [ eapply issues_bind; [| intros ? |]
    | match goal with
      | |- issues _ (match ?x with _ => _ end) => destruct x
      end
    | apply issues_send
    | apply issues_offline;
      first [ apply offline_save_key_to_file
            | solve [unfold logging.info, logging.error; auto with frames]
            | apply (keeps_ret _ offline_refl)
            | apply (keeps_raise _ offline_refl)
            | apply (keeps_lift _ offline_refl) ]
    | reflexivity ].

Lemma issues_register_user client : issues [POST] (register_user client).
Proof. unfold register_user, httpx.post. repeat issues_step. Qed.

Lemma issues_register_referral_user client :
  issues [POST] (register_referral_user client).
Proof. unfold register_referral_user, httpx.post. repeat issues_step. Qed.

Lemma issues_add_referral_and_delete client uid tok rid rtok :
  issues [PATCH; DELETE] (add_referral_and_delete client uid tok rid rtok).
Proof.
  unfold add_referral_and_delete, httpx.patch, httpx.delete. repeat issues_step.
Qed.

Lemma issues_swap_license_keys keys client uid lic tok :
  issues [PUT; PUT] (swap_license_keys keys client uid lic tok).
Proof. unfold swap_license_keys, httpx.put. repeat issues_step. Qed.

Lemma issues_get_updated_user_info client uid tok :
  issues [GET] (get_updated_user_info client uid tok).
Proof. unfold get_updated_user_info, httpx.get. repeat issues_step. Qed.

Lemma issues_delete_user client uid tok :
  issues [DELETE] (delete_user client uid tok).
Proof. unfold delete_user, httpx.delete. repeat issues_step. Qed.

(** Whatever the replies, the verbs of the requests of one iteration are
    the first few of [iteration_verbs]: a request goes out only after all
    the requests before it in that list. *)
Lemma iteration_protocol keys client w :
  exists k,
    verbs_of (since w (exec (generate_and_save_key keys client) w))
    = firstn k iteration_verbs.
Proof.
  assert (B : issues iteration_verbs
                ('(user_id, initial_license, user_token) <- register_user client ;;
                 '(referral_id, referral_token) <- register_referral_user client ;;
                 add_referral_and_delete client user_id user_token referral_id
                   referral_token ;;
                 swap_license_keys keys client user_id initial_license user_token ;;
                 '(referral_count, final_license, warp_plus, quota) <-
                    get_updated_user_info client user_id user_token ;;
                 delete_user client user_id user_token ;;
                 if Py.truthy warp_plus && Py.ne quota (PInt 0)
                 then save_key_to_file
                        (PDict [("Quota", quota); ("license", final_license)])
                 else ret tt)).
  { eapply issues_bind; [apply issues_register_user | intros [[uid lic] tok] |].
    eapply issues_bind; [apply issues_register_referral_user | intros [rid rtok] |].
    eapply issues_bind; [apply issues_add_referral_and_delete | intros _ |].
    eapply issues_bind; [apply issues_swap_license_keys | intros _ |].
    eapply issues_bind;
      [apply issues_get_updated_user_info | intros [[[rc fl] wp] q] |].
    eapply issues_bind; [apply issues_delete_user | intros _ |].
    - apply issues_offline.
      destruct (Py.truthy wp && Py.ne q (PInt 0));
        [apply offline_save_key_to_file | apply (keeps_ret _ offline_refl)].
    - reflexivity.
    - reflexivity.
    - reflexivity.
    - reflexivity.
    - reflexivity.
    - reflexivity. }
  destruct (B w) as (d & E & V).
  unfold generate_and_save_key, exec, try_except in *.
  match type of E with
  | context [snd (?b w)] => destruct (b w) as [[[]|e] w1]
  end; cbn [fst snd] in *.
  - exists (List.length iteration_verbs).
    rewrite (since_app _ _ _ E), V. reflexivity.
  - destruct V as [rest V]. exists (List.length (verbs_of d)).
    erewrite since_app
      by (cbn [logging.error emit snd events]; rewrite E, <- app_assoc; reflexivity).
    rewrite verbs_of_app, V, firstn_app, Nat.sub_diag, firstn_all, firstn_O.
    reflexivity.
Qed.

(** ** The Referral Linker *)

Ltac run_events :=
  apply (f_equal requests_of);
  apply since_app; cbn [events snd]; rewrite <- ?app_assoc; reflexivity.

(** Unfolds the client calls and the logging of a function body. *)
Ltac unfold_calls :=
  unfold exec, bind, httpx.post, httpx.patch, httpx.put, httpx.get,
    httpx.delete, httpx.send, logging.info, logging.error, emit;
  cbn [replies events randoms file fst snd].

(** C4. In every iteration the delete of the referral account goes out
    only after the referrer-link update: whatever the replies, the verbs of
    the requests of an iteration are the first few of POST, POST, PATCH,
    DELETE, PUT, PUT, GET, DELETE, so its first DELETE follows the PATCH.
    Inside [add_referral_and_delete] the PATCH is the first request; when it
    raises, the error leaves the function at once and the PATCH is the only
    request of the call: the delete of the referral account is not
    attempted. When it returns, that delete is the next and last request. *)
Theorem referral_deleted_only_after_link (keys : list pyval) (client : Client)
    (user_id user_token referral_id referral_token : pyval) (w : world) :
  match replies w 0 with
  | Raises e =>
      fst (add_referral_and_delete client user_id user_token referral_id
             referral_token w) = Err e
      /\ requests_of
           (since w (exec (add_referral_and_delete client user_id user_token
                             referral_id referral_token) w))
         = [referrer_update client user_id user_token referral_id]
  | Response _ =>
      requests_of
        (since w (exec (add_referral_and_delete client user_id user_token
                          referral_id referral_token) w))
      = [referrer_update client user_id user_token referral_id;
         account_delete client referral_id referral_token]
  end
  /\ exists k,
       verbs_of (since w (exec (generate_and_save_key keys client) w))
       = firstn k iteration_verbs.
Proof.
  split; [|apply iteration_protocol].
  unfold exec, add_referral_and_delete, bind, httpx.patch, httpx.delete,
    httpx.send, logging.info, emit.
  cbn [replies events].
  destruct (replies w 0) as [e|b].
  - split; [reflexivity|]. cbn [snd].
    change [referrer_update client user_id user_token referral_id]
      with (requests_of [EvHttp (referrer_update client user_id user_token referral_id)]).
    run_events.
  - cbn [replies]. destruct (replies w 1) as [e|b'].
    + change [referrer_update client user_id user_token referral_id;
              account_delete client referral_id referral_token]
        with (requests_of
                [EvHttp (referrer_update client user_id user_token referral_id);
                 EvInfo "Referral added to the user.";
                 EvHttp (account_delete client referral_id referral_token)]).
      run_events.
    + change [referrer_update client user_id user_token referral_id;
              account_delete client referral_id referral_token]
        with (requests_of
                [EvHttp (referrer_update client user_id user_token referral_id);
                 EvInfo "Referral added to the user.";
                 EvHttp (account_delete client referral_id referral_token);
                 EvInfo "Referral user deleted."]).
      run_events.
Qed.

(** ** The License Swapper *)

Lemma choice_picks {A} (k : A) (ks : list A) (w : world) :
  exists x,
    In x (k :: ks)
    /\ random.choice (k :: ks) w
       = (Ok x, mk_world (events w) (replies w) (fun n => randoms w (S n)) (file w)).
Proof.
  unfold random.choice.
  destruct (nth_error (k :: ks) (randoms w 0 mod List.length (k :: ks))) as [x|] eqn:E.
  - exists x. split; [eapply nth_error_In; exact E | reflexivity].
  - apply nth_error_None in E.
    pose proof (Nat.mod_upper_bound (randoms w 0) (List.length (k :: ks))
                  ltac:(discriminate)).
    lia.
Qed.

(** With one element to choose from, the choice is that element, whatever
    the generator returns. *)
Lemma choice_single {A} (k : A) (w : world) :
  random.choice [k] w
  = (Ok k, mk_world (events w) (replies w) (fun n => randoms w (S n)) (file w)).
Proof.
  destruct (choice_picks k [] w) as (x & [<-|[]] & E). exact E.
Qed.

(** The requests of [swap_license_keys], once the probe is chosen. *)
Lemma swap_requests (keys : list pyval) (client : Client)
    (user_id initial_license user_token selected : pyval) (w : world) :
  random.choice keys w
  = (Ok selected,
     mk_world (events w) (replies w) (fun n => randoms w (S n)) (file w)) ->
  match replies w 0 with
  | Raises e =>
      fst (swap_license_keys keys client user_id initial_license user_token w)
      = Err e
      /\ requests_of
           (since w (exec (swap_license_keys keys client user_id initial_license
                             user_token) w))
         = [license_update client user_id user_token (Py.str selected)]
  | Response _ =>
      requests_of
        (since w (exec (swap_license_keys keys client user_id initial_license
                          user_token) w))
      = [license_update client user_id user_token (Py.str selected);
         license_update client user_id user_token (Py.str initial_license)]
  end.
Proof.
  intros C. unfold swap_license_keys, exec.
  rewrite (bind_ok _ _ _ _ _ C).
  unfold_calls.
  destruct (replies w 0) as [e|b].
  - split; [reflexivity|].
    change [license_update client user_id user_token (Py.str selected)]
      with (requests_of
              [EvHttp (license_update client user_id user_token (Py.str selected))]).
    run_events.
  - cbn [replies]. destruct (replies w 1) as [e|b'].
    + change [license_update client user_id user_token (Py.str selected);
              license_update client user_id user_token (Py.str initial_license)]
        with (requests_of
                [EvHttp (license_update client user_id user_token (Py.str selected));
                 EvHttp (license_update client user_id user_token
                           (Py.str initial_license))]).
      run_events.
    + change [license_update client user_id user_token (Py.str selected);
              license_update client user_id user_token (Py.str initial_license)]
        with (requests_of
                [EvHttp (license_update client user_id user_token (Py.str selected));
                 EvHttp (license_update client user_id user_token
                           (Py.str initial_license));
                 EvInfo "License key applied and reverted."]).
      run_events.
Qed.

(** C3, as amended. With a pool that is not empty, the swapper first sends
    the probe, a license update carrying an element of the pool. When that
    call returns, the revert follows as the second and last request and
    carries the license given to the function, the one captured at
    registration. When the probe call raises, the error leaves the function
    and the probe is its only request: no revert is sent. *)
Theorem swap_reverts_when_probe_returns (k : pyval) (ks : list pyval)
    (client : Client) (user_id initial_license user_token : pyval) (w : world) :
  exists selected,
    In selected (k :: ks)
    /\ match replies w 0 with
       | Raises e =>
           fst (swap_license_keys (k :: ks) client user_id initial_license
                  user_token w) = Err e
           /\ requests_of
                (since w (exec (swap_license_keys (k :: ks) client user_id
                                  initial_license user_token) w))
              = [license_update client user_id user_token (Py.str selected)]
       | Response _ =>
           requests_of
             (since w (exec (swap_license_keys (k :: ks) client user_id
                               initial_license user_token) w))
           = [license_update client user_id user_token (Py.str selected);
              license_update client user_id user_token (Py.str initial_license)]
       end.
Proof.
  destruct (choice_picks k ks w) as (x & Hin & C).
  exists x. split; [exact Hin|].
  apply swap_requests. exact C.
Qed.

(** C3, as stated, fails when the probe call times out: the probe is the
    only request, and the account keeps whatever the probe set. *)
Lemma swap_leaves_probe_on_timeout :
  ~ swap_always_reverts Demo.keys Demo.client (PStr "u1") (PStr "A") (PStr "t1")
      Demo.w_silent.
Proof.
  intros [probe H]. vm_compute in H. discriminate H.
Qed.

(** The first license sent by [swap_license_keys] when the pool has one
    element. *)
Lemma swap_first_license (pool : pyval) (client : Client)
    (user_id initial_license user_token : pyval) (w : world) :
  first_license_sent
    (since w (exec (swap_license_keys [pool] client user_id initial_license
                      user_token) w))
  = Some (PStr (Py.str pool)).
Proof.
  pose proof (swap_requests [pool] client user_id initial_license user_token
                pool w (choice_single pool w)) as H.
  unfold first_license_sent.
  destruct (replies w 0); [destruct H as [_ H]|]; rewrite H; reflexivity.
Qed.

(** C10. The module computes a pool of exactly one element, the whole list
    of the split keys, and the probe that [swap_license_keys] sends is the
    text of that list: the same string in any two runs, whatever the random
    generator, the replies and the store of each. *)
Theorem probe_independent_of_randomness (s : string) (client : Client)
    (user_id initial_license user_token : pyval) (w1 w2 : world) :
  exists pool,
    load_keys (Some s) = Ok [pool]
    /\ pool = PList (map PStr (PyStr.split ","%char s))
    /\ first_license_sent
         (since w1 (exec (swap_license_keys [pool] client user_id initial_license
                            user_token) w1))
       = Some (PStr (Py.str pool))
    /\ first_license_sent
         (since w1 (exec (swap_license_keys [pool] client user_id initial_license
                            user_token) w1))
       = first_license_sent
           (since w2 (exec (swap_license_keys [pool] client user_id
                              initial_license user_token) w2)).
Proof.
  exists (PList (map PStr (PyStr.split ","%char s))).
  split; [reflexivity|]. split; [reflexivity|].
  rewrite !swap_first_license. split; reflexivity.
Qed.

(** *** The text of a list is none of its elements *)

Lemma length_append (a b : string) :
  String.length (a ++ b) = String.length a + String.length b.
Proof. induction a as [|c a IH]; simpl; [reflexivity|]. rewrite IH. reflexivity. Qed.

Lemma length_escape (q c : ascii) : 1 <= String.length (PyStr.escape q c).
Proof.
  unfold PyStr.escape.
  repeat match goal with
         | |- context [if ?b then _ else _] => destruct b
         end; simpl; lia.
Qed.

Lemma length_escape_all (q : ascii) (s : string) :
  String.length s <= String.length (PyStr.escape_all q s).
Proof.
  induction s as [|c s IH]; simpl; [lia|].
  rewrite length_append. pose proof (length_escape q c). lia.
Qed.

Lemma length_repr (s : string) :
  String.length s + 2 <= String.length (PyStr.repr s).
Proof.
  unfold PyStr.repr. cbn [String.length]. rewrite length_append.
  pose proof (length_escape_all
                (if PyStr.contains "'"%char s && negb (PyStr.contains "034"%char s)
                 then "034"%char else "'"%char) s).
  simpl. lia.
Qed.

Lemma length_join (sep x : string) (parts : list string) :
  In x parts -> String.length x <= String.length (PyStr.join sep parts).
Proof.
  induction parts as [|p rest IH]; [intros []|].
  intros [<-|H]; cbn [PyStr.join]; destruct rest as [|p' rest].
  - lia.
  - rewrite !length_append. lia.
  - destruct H.
  - rewrite !length_append. specialize (IH H). lia.
Qed.

(** Whatever the pool, the probe sent differs from each of its keys: it is
    longer than any of them. *)
Lemma rendered_pool_is_no_key (pool : list string) (k : string) :
  In k pool -> Py.str (PList (map PStr pool)) <> k.
Proof.
  intros H E. apply (f_equal String.length) in E.
  cbn [Py.str Py.repr] in E. rewrite map_map in E. cbn [Py.repr] in E.
  rewrite !length_append in E.
  pose proof (length_join ", " (PyStr.repr k) (map PyStr.repr pool)
                (in_map PyStr.repr pool k H)).
  pose proof (length_repr k). simpl in E.
  change (fun x : string => PyStr.repr x) with PyStr.repr in E. lia.
Qed.

(** C7, at [KEYS=a,b]. The pool the module computes has one element, the
    list of both keys, and the probe sent is the text of that list, whatever
    the random generator returns: neither [a] nor [b] is ever sent. *)
Theorem probe_is_the_rendered_pool (client : Client)
    (user_id initial_license user_token : pyval) (w : world) :
  load_keys (Some "a,b") = Ok Demo.keys
  /\ first_license_sent
       (since w (exec (swap_license_keys Demo.keys client user_id initial_license
                         user_token) w))
     = Some (PStr "['a', 'b']").
Proof.
  split; [reflexivity|]. unfold Demo.keys. rewrite swap_first_license. reflexivity.
Qed.

(** ** The Key Persister *)

Lemma length_join_grows (sep y : string) (l : list string) :
  String.length (PyStr.join sep l) <= String.length (PyStr.join sep (l ++ [y])).
Proof.
  induction l as [|a l IH]; [cbn; lia|].
  destruct l as [|b l].
  - cbn [app PyStr.join]. rewrite !length_append. lia.
  - change ((a :: b :: l) ++ [y])%list with (a :: (b :: l) ++ [y])%list.
    change ((b :: l) ++ [y])%list with (b :: (l ++ [y]))%list in *.
    change (PyStr.join sep (a :: b :: l ++ [y]))
      with (a ++ sep ++ PyStr.join sep (b :: l ++ [y])).
    change (PyStr.join sep (a :: b :: l))
      with (a ++ sep ++ PyStr.join sep (b :: l)).
    rewrite !length_append. lia.
Qed.

(** The text the script writes for an array does not get shorter when a
    record is added at its end. *)
Lemma length_dumps_grows (l : list pyval) (x : pyval) (indent : option nat) :
  String.length (json.dumps (PList l) indent)
  <= String.length (json.dumps (PList (l ++ [x])) indent).
Proof.
  unfold json.dumps. destruct l as [|a l].
  - change (json.encode indent 0 (PList [])) with "[]".
    change (json.encode indent 0 (PList ([] ++ [x])))
      with ("[" ++ json.newline_indent indent 1
            ++ PyStr.join (json.item_separator indent ++ json.newline_indent indent 1)
                 (map (json.encode indent 1) [x])
            ++ json.newline_indent indent 0 ++ "]").
    rewrite !length_append. cbn [String.length]. lia.
  - change (json.encode indent 0 (PList (a :: l)))
      with ("[" ++ json.newline_indent indent 1
            ++ PyStr.join (json.item_separator indent ++ json.newline_indent indent 1)
                 (map (json.encode indent 1) (a :: l))
            ++ json.newline_indent indent 0 ++ "]").
    change (json.encode indent 0 (PList ((a :: l) ++ [x])))
      with ("[" ++ json.newline_indent indent 1
            ++ PyStr.join (json.item_separator indent ++ json.newline_indent indent 1)
                 (map (json.encode indent 1) ((a :: l) ++ [x]))
            ++ json.newline_indent indent 0 ++ "]").
    rewrite map_app, !length_append.
    pose proof (length_join_grows
                  (json.item_separator indent ++ json.newline_indent indent 1)
                  (json.encode indent 1 x)
                  (map (json.encode indent 1) (a :: l))) as G.
    cbn [map] in *. lia.
Qed.

Lemma length_dumps_nonempty (a : pyval) (l : list pyval) (indent : option nat) :
  2 <= String.length (json.dumps (PList (a :: l)) indent).
Proof.
  pose proof (length_dumps_grows [] a indent) as G.
  induction l as [|b l IH] using rev_ind; [exact G|].
  pose proof (length_dumps_grows (a :: l) b indent) as G'.
  cbn [app] in *. lia.
Qed.

(** A rewrite goes through when the old text, the whitespace at its end
    aside, is not longer than the new one: the file then holds the new
    value, and what is left of the old text is whitespace. *)
Lemma overwritten_fits (v : pyval) (written size padding : nat) :
  size - padding <= written ->
  exists size' padding',
    json.overwritten v written size padding = Present (Some v) size' padding'
    /\ size' - padding' <= written.
Proof.
  intros H. unfold json.overwritten.
  destruct (size <=? written)%nat eqn:L.
  - exists written, 0. split; [reflexivity|lia].
  - apply Nat.leb_gt in L.
    replace (size - written <=? padding)%nat with true
      by (symmetry; apply Nat.leb_le; lia).
    exists size, (size - written). split; [reflexivity|lia].
Qed.

(** A rewrite of a longer text that does not end in enough whitespace
    leaves a file that [json.load] refuses. *)
Lemma overwritten_spoils (v : pyval) (written size padding : nat) :
  written < size - padding ->
  json.overwritten v written size padding = Present None size padding.
Proof.
  intros H. unfold json.overwritten.
  replace (size <=? written)%nat with false by (symmetry; apply Nat.leb_gt; lia).
  replace (size - written <=? padding)%nat with false
    by (symmetry; apply Nat.leb_gt; lia).
  reflexivity.
Qed.

(** The store after [save_key_to_file], whatever the store before: created
    with an empty array and rewritten when absent, rewritten from offset 0
    when it holds an array, left alone otherwise. The record's [license]
    plays no part in it. *)
Lemma save_key_to_file_store (key_info : pyval) (w : world) :
  file (exec (save_key_to_file key_info) w)
  = match file w with
    | Absent =>
        json.overwritten (PList [key_info])
          (String.length (json.dumps (PList [key_info]) (Some 4))) 2 0
    | Present (Some (PList l)) size padding =>
        json.overwritten (PList (l ++ [key_info]))
          (String.length (json.dumps (PList (l ++ [key_info])) (Some 4)))
          size padding
    | s => s
    end.
Proof.
  unfold save_key_to_file, exec, try_except, bind, os_path.exists_, json.load,
    json.dump, set_file, append, lift, ret, raise, logging.info, logging.error, emit.
  destruct (file w) as [|[[| | | |l|]|] size padding] eqn:F;
    cbn [negb file fst snd]; rewrite ?F; cbn [file fst snd];
    try reflexivity;
    destruct (Py.getitem key_info "license"); reflexivity.
Qed.

Lemma rewritable_appendable (s : store) :
  rewritable s = true -> appendable s = true.
Proof.
  destruct s as [|[[| | | |l|]|] size padding]; try discriminate; reflexivity.
Qed.

(** On a store that takes every append, [save_key_to_file] ends with the
    array extended by the record at its end, on a store of the same kind,
    also when the record has no [license] to log. *)
Lemma save_key_to_file_appends (key_info : pyval) (w : world) :
  rewritable (file w) = true ->
  rewritable (file (exec (save_key_to_file key_info) w)) = true
  /\ records (file (exec (save_key_to_file key_info) w))
     = (records (file w) ++ [key_info])%list.
Proof.
  intros H. rewrite save_key_to_file_store.
  destruct (file w) as [|[[| | | |l|]|] size padding]; try discriminate H.
  - pose proof (length_dumps_nonempty key_info [] (Some 4)) as N.
    destruct (overwritten_fits (PList [key_info])
                (String.length (json.dumps (PList [key_info]) (Some 4))) 2 0
                ltac:(lia)) as (s' & p' & E & L).
    rewrite E. cbn [rewritable records app]. split; [|reflexivity].
    apply Nat.leb_le. exact L.
  - cbn [rewritable] in H. apply Nat.leb_le in H.
    pose proof (length_dumps_grows l key_info (Some 4)) as G.
    destruct (overwritten_fits (PList (l ++ [key_info]))
                (String.length (json.dumps (PList (l ++ [key_info])) (Some 4)))
                size padding ltac:(lia)) as (s' & p' & E & L).
    rewrite E. cbn [rewritable records]. split; [|reflexivity].
    apply Nat.leb_le. exact L.
Qed.

(** C9, at a key file that holds an empty array written as an opening
    bracket, 200 spaces and a closing bracket. The rewrite is shorter than
    that text and nothing cuts the file after it, so the end of the old text
    stays behind the new one: [save_key_to_file] reports the key as saved
    and leaves a file that does not parse. The next call finds no array to
    extend: it logs the decoding error and the second key is lost as
    well. *)
Theorem rewrite_keeps_the_end_of_a_longer_text (w : world) :
  file (exec (save_key_to_file Demo.record) (with_file w Demo.padded_empty))
  = Present None 202 0
  /\ since (with_file w Demo.padded_empty)
       (exec (save_key_to_file Demo.record) (with_file w Demo.padded_empty))
     = [EvInfo "Key successfully saved: B"]
  /\ file (exec (save_key_to_file Demo.record)
             (exec (save_key_to_file Demo.record)
                (with_file w Demo.padded_empty)))
     = Present None 202 0
  /\ since (exec (save_key_to_file Demo.record) (with_file w Demo.padded_empty))
       (exec (save_key_to_file Demo.record)
          (exec (save_key_to_file Demo.record) (with_file w Demo.padded_empty)))
     = [EvError "Error saving to file: " JSONDecodeError].
Proof.
  assert (F1 : file (exec (save_key_to_file Demo.record)
                       (with_file w Demo.padded_empty))
               = Present None 202 0).
  { rewrite save_key_to_file_store. reflexivity. }
  split; [exact F1|]. split; [apply since_app; reflexivity|].
  split.
  - rewrite save_key_to_file_store, F1. reflexivity.
  - apply since_app.
    set (w1 := exec (save_key_to_file Demo.record) (with_file w Demo.padded_empty))
      in *.
    unfold save_key_to_file at 1.
    unfold exec at 1. unfold try_except, bind, os_path.exists_, json.load.
    rewrite F1. reflexivity.
Qed.

(** C1. For every account state read back with a boolean premium flag and
    an integer quota, in an iteration whose network stages all returned and
    on a store that takes appends (no file yet, or an array whose text the
    rewrite covers): the iteration appends one record when the flag is true
    and the quota is not zero, and leaves the store untouched in the three
    other cases. *)
Theorem persists_iff_eligible (keys : list pyval) (client : Client) (w : world)
    (initial_license referral_count final_license : pyval)
    (premium : bool) (quota : Z) (w6 : world) :
  acquires keys client w initial_license referral_count final_license
    (PBool premium) (PInt quota) w6 ->
  rewritable (file w) = true ->
  if premium && negb (quota =? 0)%Z
  then rewritable (file (exec (generate_and_save_key keys client) w)) = true
       /\ records (file (exec (generate_and_save_key keys client) w))
          = (records (file w)
               ++ [PDict [("Quota", PInt quota); ("license", final_license)]])%list
  else file (exec (generate_and_save_key keys client) w) = file w.
Proof.
  intros A S.
  pose proof (acquires_same_file _ _ _ _ _ _ _ _ _ A) as F.
  unfold exec. rewrite (generate_and_save_key_decides _ _ _ _ _ _ _ _ _ A).
  change (Py.truthy (PBool premium) && Py.ne (PInt quota) (PInt 0))
    with (premium && negb (quota =? 0)%Z).
  destruct (premium && negb (quota =? 0)%Z).
  - change (snd (save_key_to_file ?r w6)) with (exec (save_key_to_file r) w6).
    rewrite <- F in *. apply save_key_to_file_appends. exact S.
  - exact F.
Qed.

(** C2, as amended. Whenever the eligibility predicate holds, the record
    handed to the persister is [{'Quota': quota, 'license': final_license}]:
    its fields are named [Quota] and [license], and its license is the one
    the reader read back from the remote end, not the one captured at
    registration. On a store that takes appends it is the record appended. *)
Theorem persisted_record_is_the_readback (keys : list pyval) (client : Client)
    (w : world) (initial_license referral_count final_license warp_plus quota : pyval)
    (w6 : world) :
  acquires keys client w initial_license referral_count final_license
    warp_plus quota w6 ->
  rewritable (file w) = true ->
  Py.truthy warp_plus && Py.ne quota (PInt 0) = true ->
  generate_and_save_key keys client w
  = (Ok tt,
     exec (save_key_to_file (PDict [("Quota", quota); ("license", final_license)]))
       w6)
  /\ records (file (exec (generate_and_save_key keys client) w))
     = (records (file w)
          ++ [PDict [("Quota", quota); ("license", final_license)]])%list.
Proof.
  intros A S E.
  pose proof (acquires_same_file _ _ _ _ _ _ _ _ _ A) as F.
  assert (G : generate_and_save_key keys client w
              = (Ok tt,
                 exec (save_key_to_file
                         (PDict [("Quota", quota); ("license", final_license)])) w6)).
  { rewrite (generate_and_save_key_decides _ _ _ _ _ _ _ _ _ A), E.
    pose proof (save_key_to_file_returns
                  (PDict [("Quota", quota); ("license", final_license)]) w6) as R.
    unfold exec.
    destruct (save_key_to_file _ w6) as [[[]|e] w7]; [reflexivity|discriminate R]. }
  split; [exact G|].
  unfold exec at 1. rewrite G. cbn [snd].
  rewrite <- F in *. apply save_key_to_file_appends. exact S.
Qed.

(** The six network stages of the sample iteration return: registration
    gives the license [A], the reader an entitled account with the license
    [B] and a quota of 3000. *)
Lemma demo_acquires :
  acquires Demo.keys Demo.client Demo.w_answered
    (PStr "A") (PInt 1) (PStr "B") (PBool true) (PInt 3000) Demo.w_disposed.
Proof.
  exists (PStr "u1"), (PStr "t1"), (PStr "r1"), (PStr "t2"),
    Demo.w_registered, Demo.w_referred, Demo.w_linked, Demo.w_swapped, Demo.w_read.
  repeat split; vm_compute; reflexivity.
Qed.

(** C2, as stated, fails on a run in which registration gives the license
    [A] and the reader reads back [B]: the record persisted is
    [{'Quota': 3000, 'license': 'B'}], which is not
    [{'license': 'A', 'quota': 3000}]. *)
Lemma persisted_record_differs_from_registration :
  ~ persists_original_license Demo.keys Demo.client Demo.w_answered.
Proof.
  intros H.
  destruct (H _ _ _ _ _ _ demo_acquires eq_refl) as (prior & r & F & E).
  vm_compute in F.
  destruct prior as [|p [|p' prior]]; try discriminate F.
  injection F as <-. vm_compute in E. discriminate E.
Qed.

Lemma persists_iff_eligible_witness :
  rewritable (file (exec (generate_and_save_key Demo.keys Demo.client)
                      Demo.w_answered)) = true
  /\ records (file (exec (generate_and_save_key Demo.keys Demo.client)
                      Demo.w_answered))
     = (records (file Demo.w_answered)
          ++ [PDict [("Quota", PInt 3000); ("license", PStr "B")]])%list.
Proof.
  exact (persists_iff_eligible Demo.keys Demo.client Demo.w_answered
           (PStr "A") (PInt 1) (PStr "B") true 3000 Demo.w_disposed
           demo_acquires eq_refl).
Defined.

Lemma persisted_record_is_the_readback_witness :
  generate_and_save_key Demo.keys Demo.client Demo.w_answered
  = (Ok tt,
     exec (save_key_to_file (PDict [("Quota", PInt 3000); ("license", PStr "B")]))
       Demo.w_disposed)
  /\ records (file (exec (generate_and_save_key Demo.keys Demo.client)
                      Demo.w_answered))
     = (records (file Demo.w_answered)
          ++ [PDict [("Quota", PInt 3000); ("license", PStr "B")]])%list.
Proof.
  exact (persisted_record_is_the_readback Demo.keys Demo.client Demo.w_answered
           (PStr "A") (PInt 1) (PStr "B") (PBool true) (PInt 3000) Demo.w_disposed
           demo_acquires eq_refl eq_refl).
Defined.

(** ** Loading the pool *)

Lemma split_nonempty (sep : ascii) (s : string) :
  exists h t, PyStr.split sep s = h :: t.
Proof.
  induction s as [|c s (h & t & IH)]; cbn [PyStr.split].
  - eauto.
  - destruct (Ascii.eqb c sep); [eauto|]. rewrite IH. eauto.
Qed.

(** C8, as amended. A [KEYS] that is not set stops the module while it
    loads, with an [AttributeError], before [main] is entered: the world is
    left as it was, so no iteration has started and no request was issued.
    A [KEYS] that is set, the empty string included, gives a pool of one
    list that is never empty, and the batch runs to its end without any
    error. *)
Theorem keys_unset_aborts_keys_set_runs (s : string) (n : Z) (w : world) :
  run_module None n w = (Err AttributeError, w)
  /\ (exists first rest, load_keys (Some s) = Ok [PList (PStr first :: rest)])
  /\ fst (run_module (Some s) n w) = Ok tt.
Proof.
  split; [reflexivity|]. split.
  - destruct (split_nonempty ","%char s) as (h & t & E).
    exists h, (map PStr t). unfold load_keys. rewrite E. reflexivity.
  - unfold run_module, bind, lift, load_keys.
    destruct (main_run [PList (map PStr (PyStr.split ","%char s))] n w) as (d & R & _).
    exact R.
Qed.

(** C8, as stated, fails for [KEYS] set to the empty string: the pool is
    [['']], nothing is raised and the iteration goes to the network. *)
Lemma empty_keys_do_not_abort :
  ~ aborts_before_start (Some EmptyString) 1 Demo.w_answered.
Proof.
  intros [e H]. apply (f_equal fst) in H. vm_compute in H. discriminate H.
Qed.

(** ** Sample runs *)

Lemma pacing_delays_witness :
  Z.of_nat (List.length
              (sleeps (since Demo.w_batch (exec (main Demo.keys 3) Demo.w_batch))))
  = (3 - 1)%Z
  /\ pace_marks (since Demo.w_batch (exec (main Demo.keys 3) Demo.w_batch))
     = paced (range 3)
  /\ is_sleep (last (since Demo.w_batch (exec (main Demo.keys 3) Demo.w_batch))
                 (EvInfo EmptyString)) = false.
Proof.
  apply (pacing_delays Demo.keys 3 Demo.w_batch). lia.
Defined.


(** A batch of three in which the read of the second iteration fails: the
    first and the third iteration still persist their key, and the store
    ends with both records. *)
Example batch_of_three_with_a_failed_read :
  Demo.saved (since Demo.w_batch (exec (main Demo.keys 3) Demo.w_batch))
  = [EvInfo "Key successfully saved: B"; EvInfo "Key successfully saved: B"]
  /\ List.length (records (file (exec (main Demo.keys 3) Demo.w_batch))) = 2
  /\ filter (fun e => match e with EvError _ _ => true | _ => false end)
       (since Demo.w_batch (exec (main Demo.keys 3) Demo.w_batch))
     = [EvError "Error during HTTP request processing: " (TransportError "timed out")].
Proof. vm_compute. repeat split. Qed.

(** * Further properties of main.py *)

(** ** [save_key_to_file] *)

Lemma save_key_to_file_run (key_info : pyval) (w : world) :
  appendable (file w) = true ->
  events (exec (save_key_to_file key_info) w)
  = (events w
       ++ [match Py.getitem key_info "license" with
           | Ok license => EvInfo (saved_prefix ++ Py.str license)
           | Err e => EvError "Error saving to file: " e
           end])%list.
Proof.
  intros H.
  unfold save_key_to_file, exec, try_except, bind, os_path.exists_, json.load,
    json.dump, set_file, append, lift, ret, logging.info, logging.error, emit.
  destruct (file w) as [|[[| | | |l|]|] size padding] eqn:F; try discriminate H;
    cbn [negb file fst snd events]; rewrite ?F; cbn [file fst snd events];
    rewrite ?F; cbn [file fst snd events];
    destruct (Py.getitem key_info "license"); reflexivity.
Qed.

(** Whatever the store, [save_key_to_file] logs exactly one line. *)
Lemma save_key_to_file_one_line (key_info : pyval) (w : world) :
  exists e, events (exec (save_key_to_file key_info) w) = (events w ++ [e])%list.
Proof.
  unfold save_key_to_file, exec, try_except, bind, os_path.exists_, json.load,
    json.dump, set_file, append, lift, ret, raise, logging.info, logging.error, emit.
  destruct (file w) as [|[[| | | |l|]|] size padding] eqn:F;
    cbn [negb file fst snd events]; rewrite ?F; cbn [fst snd file events];
    rewrite ?F; cbn [fst snd file events];
    try (eexists; reflexivity);
    destruct (Py.getitem key_info "license"); eexists; reflexivity.
Qed.

(** X1. On a store that takes appends (no file yet, or an array whose text
    the rewrite covers), [save_key_to_file] writes the record whether or not
    the record has a [license] to report: with one, the call logs the saved
    key; without one, the record is in the file all the same and the only
    line logged is the error of the missing field. The call returns normally
    in both cases. *)
Theorem save_key_to_file_writes_before_it_reports (key_info : pyval) (w : world) :
  rewritable (file w) = true ->
  fst (save_key_to_file key_info w) = Ok tt
  /\ rewritable (file (exec (save_key_to_file key_info) w)) = true
  /\ records (file (exec (save_key_to_file key_info) w))
     = (records (file w) ++ [key_info])%list
  /\ since w (exec (save_key_to_file key_info) w)
     = [match Py.getitem key_info "license" with
        | Ok license => EvInfo (saved_prefix ++ Py.str license)
        | Err e => EvError "Error saving to file: " e
        end].
Proof.
  intros H. split; [apply save_key_to_file_returns|].
  destruct (save_key_to_file_appends key_info w H) as [R A].
  split; [exact R|]. split; [exact A|].
  apply since_app. apply save_key_to_file_run.
  apply rewritable_appendable. exact H.
Qed.

Lemma save_key_to_file_writes_before_it_reports_witness :
  fst (save_key_to_file (PDict [("Quota", PInt 5)]) Demo.w_silent) = Ok tt
  /\ rewritable
       (file (exec (save_key_to_file (PDict [("Quota", PInt 5)])) Demo.w_silent))
     = true
  /\ records
       (file (exec (save_key_to_file (PDict [("Quota", PInt 5)])) Demo.w_silent))
     = (records (file Demo.w_silent) ++ [PDict [("Quota", PInt 5)]])%list
  /\ since Demo.w_silent
       (exec (save_key_to_file (PDict [("Quota", PInt 5)])) Demo.w_silent)
     = [EvError "Error saving to file: " (KeyError "license")].
Proof.
  apply (save_key_to_file_writes_before_it_reports
           (PDict [("Quota", PInt 5)]) Demo.w_silent).
  reflexivity.
Defined.

(** X2. On a store that is present but is no JSON array, text that does not
    parse or a JSON value of another kind, [save_key_to_file] stores
    nothing: the file is left as it was, the one line logged is the error
    ([JSONDecodeError] for the text, [AttributeError] for the value without
    [append]) and the call returns normally, so the key is lost without the
    caller noticing. *)
Theorem save_key_to_file_loses_key_on_bad_store (key_info : pyval) (w : world) :
  appendable (file w) = false ->
  fst (save_key_to_file key_info w) = Ok tt
  /\ file (exec (save_key_to_file key_info) w) = file w
  /\ since w (exec (save_key_to_file key_info) w)
     = [EvError "Error saving to file: "
          match file w with
          | Present None _ _ => JSONDecodeError
          | _ => AttributeError
          end].
Proof.
  intros H. split; [apply save_key_to_file_returns|].
  unfold save_key_to_file, exec, try_except, bind, os_path.exists_, json.load,
    json.dump, set_file, append, lift, ret, raise, logging.info, logging.error, emit.
  destruct (file w) as [|[[| | | |l|]|] size padding] eqn:F; try discriminate H;
    cbn [negb file fst snd events]; rewrite ?F; cbn [fst snd file];
    (split; [try exact F; reflexivity | apply since_app; reflexivity]).
Qed.

Lemma save_key_to_file_loses_key_on_bad_store_witness :
  fst (save_key_to_file (PDict [("license", PStr "B")])
         (with_file Demo.w_silent (Present (Some (PDict [])) 2 0))) = Ok tt
  /\ file (exec (save_key_to_file (PDict [("license", PStr "B")]))
             (with_file Demo.w_silent (Present (Some (PDict [])) 2 0)))
     = file (with_file Demo.w_silent (Present (Some (PDict [])) 2 0))
  /\ since (with_file Demo.w_silent (Present (Some (PDict [])) 2 0))
       (exec (save_key_to_file (PDict [("license", PStr "B")]))
          (with_file Demo.w_silent (Present (Some (PDict [])) 2 0)))
     = [EvError "Error saving to file: "
          match file (with_file Demo.w_silent (Present (Some (PDict [])) 2 0)) with
          | Present None _ _ => JSONDecodeError
          | _ => AttributeError
          end].
Proof.
  apply (save_key_to_file_loses_key_on_bad_store
           (PDict [("license", PStr "B")])
           (with_file Demo.w_silent (Present (Some (PDict [])) 2 0))).
  reflexivity.
Defined.

(** X18. The rewrite has no [truncate]: on a key file that holds an array
    whose text, the whitespace at its end aside, is longer than the text the
    script writes for the array with the new record, [save_key_to_file]
    leaves the file at its old size with the end of the old text behind the
    new one, which [json.load] refuses, and still reports as if the record
    were stored: the line logged is the saved key, or the error of the
    missing [license], and the call returns normally. *)
Theorem save_key_to_file_spoils_a_longer_text (key_info : pyval) (w : world)
    (l : list pyval) (size padding : nat) :
  file w = Present (Some (PList l)) size padding ->
  String.length (json.dumps (PList (l ++ [key_info])) (Some 4)) < size - padding ->
  fst (save_key_to_file key_info w) = Ok tt
  /\ file (exec (save_key_to_file key_info) w) = Present None size padding
  /\ since w (exec (save_key_to_file key_info) w)
     = [match Py.getitem key_info "license" with
        | Ok license => EvInfo (saved_prefix ++ Py.str license)
        | Err e => EvError "Error saving to file: " e
        end].
Proof.
  intros F L. split; [apply save_key_to_file_returns|]. split.
  - rewrite save_key_to_file_store, F. apply overwritten_spoils. exact L.
  - apply since_app. apply save_key_to_file_run. rewrite F. reflexivity.
Qed.

Lemma save_key_to_file_spoils_a_longer_text_witness :
  fst (save_key_to_file Demo.record (with_file Demo.w_silent Demo.padded_empty))
  = Ok tt
  /\ file (exec (save_key_to_file Demo.record)
             (with_file Demo.w_silent Demo.padded_empty))
     = Present None 202 0
  /\ since (with_file Demo.w_silent Demo.padded_empty)
       (exec (save_key_to_file Demo.record)
          (with_file Demo.w_silent Demo.padded_empty))
     = [EvInfo "Key successfully saved: B"].
Proof.
  apply (save_key_to_file_spoils_a_longer_text Demo.record
           (with_file Demo.w_silent Demo.padded_empty) [] 202 0).
  - reflexivity.
  - vm_compute. lia.
Defined.

(** X19. Where the text fits, appending keeps what was there: on a store that
    takes appends, two calls of [save_key_to_file] leave the records found
    there, in their order, followed by the two new records, so two more
    than before; and started without a file, the first call leaves a file
    that holds the one record, as long as the script's text for it. *)
Theorem appends_keep_prior_records_when_the_text_fits (r1 r2 : pyval) (w : world) :
  rewritable (file w) = true ->
  records (file (exec (save_key_to_file r2) (exec (save_key_to_file r1) w)))
  = (records (file w) ++ [r1; r2])%list
  /\ List.length
       (records (file (exec (save_key_to_file r2) (exec (save_key_to_file r1) w))))
     = List.length (records (file w)) + 2
  /\ (file w = Absent ->
      file (exec (save_key_to_file r1) w)
      = Present (Some (PList [r1]))
          (String.length (json.dumps (PList [r1]) (Some 4))) 0).
Proof.
  intros H.
  destruct (save_key_to_file_appends r1 w H) as [R1 A1].
  destruct (save_key_to_file_appends r2 _ R1) as [R2 A2].
  assert (E : records (file (exec (save_key_to_file r2)
                               (exec (save_key_to_file r1) w)))
              = (records (file w) ++ [r1; r2])%list).
  { rewrite A2, A1, <- app_assoc. reflexivity. }
  split; [exact E|]. split.
  - rewrite E, length_app. reflexivity.
  - intros F. rewrite save_key_to_file_store, F. unfold json.overwritten.
    pose proof (length_dumps_nonempty r1 [] (Some 4)) as N.
    replace (2 <=? String.length (json.dumps (PList [r1]) (Some 4)))%nat
      with true by (symmetry; apply Nat.leb_le; exact N).
    reflexivity.
Qed.

Lemma appends_keep_prior_records_when_the_text_fits_witness :
  records (file (exec (save_key_to_file Demo.record)
                   (exec (save_key_to_file Demo.record) Demo.w_silent)))
  = [Demo.record; Demo.record].
Proof.
  apply (appends_keep_prior_records_when_the_text_fits Demo.record Demo.record
           Demo.w_silent).
  reflexivity.
Defined.

(** ** The pool of keys *)

Lemma join_cons_cons (sep p q : string) (r : list string) :
  PyStr.join sep (p :: q :: r) = p ++ sep ++ PyStr.join sep (q :: r).
Proof. reflexivity. Qed.

Lemma join_split (c : ascii) (s : string) :
  PyStr.join (String c EmptyString) (PyStr.split c s) = s.
Proof.
  induction s as [|a s IH]; [reflexivity|].
  cbn [PyStr.split].
  destruct (split_nonempty c s) as (h & t & E). rewrite E in *.
  destruct (Ascii.eqb a c) eqn:Q.
  - apply Ascii.eqb_eq in Q. subst a.
    rewrite join_cons_cons, IH. reflexivity.
  - destruct t as [|t1 t].
    + cbn [PyStr.join] in *. rewrite IH. reflexivity.
    + rewrite join_cons_cons in *. rewrite <- IH. reflexivity.
Qed.

Lemma split_pieces_lack_separator (c : ascii) (s : string) :
  Forall (fun p => PyStr.contains c p = false) (PyStr.split c s).
Proof.
  induction s as [|a s IH]; [repeat constructor|].
  cbn [PyStr.split].
  destruct (split_nonempty c s) as (h & t & E). rewrite E in *.
  destruct (Ascii.eqb a c) eqn:Q.
  - constructor; [reflexivity|exact IH].
  - inversion IH as [|? ? Hh Ht]; subst. constructor; [|exact Ht].
    cbn [PyStr.contains]. rewrite Hh.
    rewrite Ascii.eqb_sym, Q. reflexivity.
Qed.

(** X3. Whatever [KEYS] holds, the module ends up with a pool of one element,
    the list of the pieces of [KEYS] between its commas: joined by commas
    the pieces give [KEYS] back, character for character, and no piece
    holds a comma. Nothing is trimmed or dropped, not spaces and not empty
    pieces. *)
Theorem load_keys_keeps_every_character (s : string) :
  exists pieces,
    load_keys (Some s) = Ok [PList (map PStr pieces)]
    /\ PyStr.join "," pieces = s
    /\ Forall (fun p => PyStr.contains ","%char p = false) pieces.
Proof.
  exists (PyStr.split ","%char s). split; [reflexivity|]. split.
  - apply join_split.
  - apply split_pieces_lack_separator.
Qed.

(** X4. Whatever [KEYS] holds and whatever the random generator returns, the
    license that [swap_license_keys] sends first is none of the keys listed
    in [KEYS]. *)
Theorem probe_is_never_a_configured_key (s k : string) (client : Client)
    (user_id initial_license user_token : pyval) (w : world) :
  In k (PyStr.split ","%char s) ->
  load_keys (Some s) = Ok [PList (map PStr (PyStr.split ","%char s))]
  /\ first_license_sent
       (since w (exec (swap_license_keys
                         [PList (map PStr (PyStr.split ","%char s))]
                         client user_id initial_license user_token) w))
     <> Some (PStr k).
Proof.
  intros H. split; [reflexivity|].
  rewrite swap_first_license. intros E. injection E as E.
  exact (rendered_pool_is_no_key _ _ H E).
Qed.

Lemma probe_is_never_a_configured_key_witness :
  load_keys (Some "a,b") = Ok [PList (map PStr (PyStr.split ","%char "a,b"))]
  /\ first_license_sent
       (since Demo.w_answered
          (exec (swap_license_keys
                   [PList (map PStr (PyStr.split ","%char "a,b"))]
                   Demo.client (PStr "u1") (PStr "A") (PStr "t1")) Demo.w_answered))
     <> Some (PStr "b").
Proof.
  apply (probe_is_never_a_configured_key "a,b" "b" Demo.client
           (PStr "u1") (PStr "A") (PStr "t1") Demo.w_answered).
  right. left. reflexivity.
Defined.

(** ** The registrations and the read *)

Ltac run_reader :=
  unfold exec, bind, httpx.post, httpx.get, httpx.send, httpx.json, lift, ret,
    raise, logging.info, emit;
  cbn [replies events randoms file fst snd].

(** X5. [register_user] returns [(id, license, token)] exactly when the call is
    answered with a JSON object that has the fields [id] and [token] and a
    field [account] that is an object with the field [license]; these are
    the values returned, and any other field of the answer is ignored. *)
Theorem register_user_returns_iff (client : Client) (w : world)
    (id license token : pyval) :
  fst (register_user client w) = Ok (id, license, token)
  <-> exists d a,
        replies w 0 = Response (Some (PDict d))
        /\ Py.lookup "id" d = Some id
        /\ Py.lookup "account" d = Some (PDict a)
        /\ Py.lookup "license" a = Some license
        /\ Py.lookup "token" d = Some token.
Proof.
  unfold register_user. run_reader.
  destruct (replies w 0) as [e|[v|]]; cbn [fst snd].
  2: { unfold Py.getitem.
       destruct v as [| | | | |d];
         try (split; [discriminate | intros (d' & a & E & _); discriminate]).
       destruct (Py.lookup "id" d) as [i|] eqn:Li; cbn [fst snd];
         [|split; [discriminate | intros (d' & a & E & L & _); congruence]].
       destruct (Py.lookup "account" d) as [acc|] eqn:La; cbn [fst snd];
         [|split; [discriminate | intros (d' & a & E & _ & L & _); congruence]].
       destruct acc as [| | | | |a];
         try (split; [discriminate | intros (d' & a' & E & _ & L & _); congruence]).
       destruct (Py.lookup "license" a) as [l|] eqn:Ll; cbn [fst snd];
         [|split; [discriminate
                  | intros (d' & a' & E & _ & L & L' & _); congruence]].
       destruct (Py.lookup "token" d) as [t|] eqn:Lt; cbn [fst snd];
         [|split; [discriminate
                  | intros (d' & a' & E & _ & _ & _ & L); congruence]].
       split.
       - intros E. injection E as <- <- <-. exists d, a. auto.
       - intros (d' & a' & E & L1 & L2 & L3 & L4).
         injection E as <-. rewrite La in L2. injection L2 as <-.
         congruence. }
  all: split; [discriminate | intros (d' & a & E & _); discriminate].
Qed.

(** Both registrations send one request, whatever the answer. *)
Lemma register_user_requests client w :
  requests_of (since w (exec (register_user client) w))
  = [registration_request client].
Proof.
  unfold register_user. run_reader.
  destruct (replies w 0) as [e|[v|]]; cbn [fst snd];
    [change [registration_request client]
       with (requests_of [EvHttp (registration_request client)]); run_events
    | | change [registration_request client]
          with (requests_of [EvHttp (registration_request client)]); run_events].
  change [registration_request client]
    with (requests_of [EvHttp (registration_request client);
                       EvInfo "New user registered successfully."]).
  destruct (Py.getitem v "id"); cbn [fst snd];
    [destruct (Py.getitem v "account") as [acc|]; cbn [fst snd];
     [destruct (Py.getitem acc "license"); cbn [fst snd];
      [destruct (Py.getitem v "token"); cbn [fst snd]|]|]|]; run_events.
Qed.

Lemma register_referral_user_requests client w :
  requests_of (since w (exec (register_referral_user client) w))
  = [registration_request client].
Proof.
  unfold register_referral_user. run_reader.
  destruct (replies w 0) as [e|[v|]]; cbn [fst snd];
    [change [registration_request client]
       with (requests_of [EvHttp (registration_request client)]); run_events
    | | change [registration_request client]
          with (requests_of [EvHttp (registration_request client)]); run_events].
  change [registration_request client]
    with (requests_of [EvHttp (registration_request client);
                       EvInfo "Referral user registered successfully."]).
  destruct (Py.getitem v "id"); cbn [fst snd];
    [destruct (Py.getitem v "token"); cbn [fst snd]|]; run_events.
Qed.

(** X6. [register_referral_user] sends the same request as [register_user] and
    returns [(id, token)] exactly when the call is answered with a JSON
    object that has the fields [id] and [token]: unlike the registration of
    the primary account it asks for no [account]. *)
Theorem register_referral_user_returns_iff (client : Client) (w : world)
    (id token : pyval) :
  requests_of (since w (exec (register_referral_user client) w))
  = requests_of (since w (exec (register_user client) w))
  /\ (fst (register_referral_user client w) = Ok (id, token)
      <-> exists d,
            replies w 0 = Response (Some (PDict d))
            /\ Py.lookup "id" d = Some id
            /\ Py.lookup "token" d = Some token).
Proof.
  split.
  - rewrite register_user_requests. apply register_referral_user_requests.
  - unfold register_referral_user. run_reader.
    destruct (replies w 0) as [e|[v|]]; cbn [fst snd].
    2: { unfold Py.getitem.
         destruct v as [| | | | |d];
           try (split; [discriminate | intros (d' & E & _); discriminate]).
         destruct (Py.lookup "id" d) as [i|] eqn:Li; cbn [fst snd];
           [|split; [discriminate | intros (d' & E & L & _); congruence]].
         destruct (Py.lookup "token" d) as [t|] eqn:Lt; cbn [fst snd];
           [|split; [discriminate | intros (d' & E & _ & L); congruence]].
         split.
         - intros E. injection E as <- <-. exists d. auto.
         - intros (d' & E & L1 & L2). injection E as <-. congruence. }
    all: split; [discriminate | intros (d' & E & _); discriminate].
Qed.

Lemma get_updated_user_info_opens client user_id user_token w :
  exists rest,
    since w (exec (get_updated_user_info client user_id user_token) w)
    = EvHttp (account_read client user_id user_token) :: rest
    /\ requests_of rest = [].
Proof.
  unfold get_updated_user_info. run_reader.
  destruct (replies w 0) as [e|[v|]]; cbn [fst snd];
    [exists []; split; [|reflexivity]
    | exists [EvInfo "Updated user information retrieved."]; split; [|reflexivity]
    | exists []; split; [|reflexivity]].
  2: destruct (Py.getitem v "referral_count"); cbn [fst snd];
       [destruct (Py.getitem v "license"); cbn [fst snd];
        [destruct (Py.getitem v "warp_plus"); cbn [fst snd];
         [destruct (Py.getitem v "quota"); cbn [fst snd]|]|]|].
  all: apply since_app; cbn [events snd]; rewrite <- ?app_assoc; reflexivity.
Qed.

(** X7. [get_updated_user_info] sends one authenticated GET of the account and
    returns [(referral_count, license, warp_plus, quota)] exactly when the
    call is answered with a JSON object that has these four fields; the
    values are returned as they came, of whatever JSON type. *)
Theorem get_updated_user_info_returns_iff (client : Client)
    (user_id user_token : pyval) (w : world)
    (referral_count license warp_plus quota : pyval) :
  (exists rest,
     since w (exec (get_updated_user_info client user_id user_token) w)
     = EvHttp (account_read client user_id user_token) :: rest
     /\ requests_of rest = [])
  /\ (fst (get_updated_user_info client user_id user_token w)
      = Ok (referral_count, license, warp_plus, quota)
      <-> exists d,
            replies w 0 = Response (Some (PDict d))
            /\ Py.lookup "referral_count" d = Some referral_count
            /\ Py.lookup "license" d = Some license
            /\ Py.lookup "warp_plus" d = Some warp_plus
            /\ Py.lookup "quota" d = Some quota).
Proof.
  split.
  - apply get_updated_user_info_opens.
  - unfold get_updated_user_info. run_reader.
    destruct (replies w 0) as [e|[v|]]; cbn [fst snd].
    2: { unfold Py.getitem.
         destruct v as [| | | | |d];
           try (split; [discriminate | intros (d' & E & _); discriminate]).
         destruct (Py.lookup "referral_count" d) as [x1|] eqn:L1; cbn [fst snd];
           [|split; [discriminate | intros (d' & E & L & _); congruence]].
         destruct (Py.lookup "license" d) as [x2|] eqn:L2; cbn [fst snd];
           [|split; [discriminate | intros (d' & E & _ & L & _); congruence]].
         destruct (Py.lookup "warp_plus" d) as [x3|] eqn:L3; cbn [fst snd];
           [|split; [discriminate | intros (d' & E & _ & _ & L & _); congruence]].
         destruct (Py.lookup "quota" d) as [x4|] eqn:L4; cbn [fst snd];
           [|split; [discriminate | intros (d' & E & _ & _ & _ & L); congruence]].
         split.
         - intros E. injection E as <- <- <- <-. exists d. auto.
         - intros (d' & E & M1 & M2 & M3 & M4). injection E as <-. congruence. }
    all: split; [discriminate | intros (d' & E & _); discriminate].
Qed.

(** ** Answers that are never read *)

(** X8. The answers to the PATCH, PUT and DELETE calls are never looked at:
    [add_referral_and_delete], [swap_license_keys] and [delete_user] return
    the same result and produce the same events when the body of every
    answer is replaced by an empty one. Only an exception raised by the call
    itself changes their course; an answer of any content, an error report
    included, is taken as a success. *)
Theorem write_answers_are_not_read (keys : list pyval) (client : Client)
    (user_id initial_license user_token referral_id referral_token : pyval)
    (w : world) :
  (fst (add_referral_and_delete client user_id user_token referral_id
          referral_token w)
   = fst (add_referral_and_delete client user_id user_token referral_id
            referral_token (blanked w))
   /\ events (exec (add_referral_and_delete client user_id user_token
                      referral_id referral_token) w)
      = events (exec (add_referral_and_delete client user_id user_token
                        referral_id referral_token) (blanked w)))
  /\ (fst (swap_license_keys keys client user_id initial_license user_token w)
      = fst (swap_license_keys keys client user_id initial_license user_token
               (blanked w))
      /\ events (exec (swap_license_keys keys client user_id initial_license
                         user_token) w)
         = events (exec (swap_license_keys keys client user_id initial_license
                           user_token) (blanked w)))
  /\ (fst (delete_user client user_id user_token w)
      = fst (delete_user client user_id user_token (blanked w))
      /\ events (exec (delete_user client user_id user_token) w)
         = events (exec (delete_user client user_id user_token) (blanked w))).
Proof.
  split; [|split].
  - unfold add_referral_and_delete, blanked. unfold_calls. unfold blank.
    destruct (replies w 0); cbn [fst snd events replies];
      [|destruct (replies w 1); cbn [fst snd events]]; split; reflexivity.
  - unfold swap_license_keys, blanked, exec, bind, random.choice.
    cbn [randoms events replies file].
    destruct keys as [|k ks]; [split; reflexivity|].
    destruct (nth_error (k :: ks) _); [|split; reflexivity].
    unfold_calls. unfold blank.
    destruct (replies w 0); cbn [fst snd events replies];
      [|destruct (replies w 1); cbn [fst snd events]]; split; reflexivity.
  - unfold delete_user, blanked. unfold_calls. unfold blank.
    destruct (replies w 0); cbn [fst snd events replies]; split; reflexivity.
Qed.

(** ** The batch *)

(** X9. A batch size that is zero or negative is taken without complaint:
    [main] logs its welcome line and returns, with no iteration, no request
    and no delay. *)
Theorem main_without_iterations (keys : list pyval) (n : Z) (w : world) :
  (n <= 0)%Z ->
  main keys n w
  = (Ok tt, exec (logging.info "Welcome to the Warp+ key generator") w).
Proof.
  intros H. unfold main, range.
  replace (Z.to_nat n) with 0 by lia. reflexivity.
Qed.

Lemma main_without_iterations_witness :
  main Demo.keys (-3) Demo.w_answered
  = (Ok tt,
     exec (logging.info "Welcome to the Warp+ key generator") Demo.w_answered).
Proof.
  apply (main_without_iterations Demo.keys (-3) Demo.w_answered). lia.
Defined.

(** ** One iteration, stage by stage *)

(** [generate_and_save_key] is its six network stages followed by the
    persist decision, under the [except] clause. *)
Lemma generate_and_save_key_split keys client w :
  generate_and_save_key keys client w
  = try_except (st <- acquire keys client ;; persist st)
      (fun error => logging.error "Error during HTTP request processing: " error) w.
Proof.
  unfold generate_and_save_key, acquire, persist, try_except, bind, ret.
  destruct (register_user client w) as [[[[uid lic] tok]|e] w1]; [|reflexivity].
  destruct (register_referral_user client w1) as [[[rid rtok]|e] w2]; [|reflexivity].
  destruct (add_referral_and_delete client uid tok rid rtok w2) as [[[]|e] w3];
    [|reflexivity].
  destruct (swap_license_keys keys client uid lic tok w3) as [[[]|e] w4];
    [|reflexivity].
  destruct (get_updated_user_info client uid tok w4) as [[[[[rc fl] wp] q]|e] w5];
    [|reflexivity].
  destruct (delete_user client uid tok w5) as [[[]|e] w6]; reflexivity.
Qed.

Lemma persist_returns st w : fst (persist st w) = Ok tt.
Proof.
  destruct st as [[[[lic rc] fl] wp] q]. unfold persist.
  destruct (Py.truthy wp && Py.ne q (PInt 0)); [|reflexivity].
  apply save_key_to_file_returns.
Qed.

(** The two ways an iteration ends: a stage raised and the error is logged,
    or the stages returned and the persist decision is taken. *)
Lemma generate_and_save_key_cases keys client w :
  (exists e w1,
     acquire keys client w = (Err e, w1)
     /\ generate_and_save_key keys client w
        = (Ok tt,
           exec (logging.error "Error during HTTP request processing: " e) w1))
  \/ (exists st w1,
        acquire keys client w = (Ok st, w1)
        /\ generate_and_save_key keys client w = (Ok tt, exec (persist st) w1)).
Proof.
  rewrite generate_and_save_key_split. unfold try_except, bind.
  destruct (acquire keys client w) as [[st|e] w1].
  - right. exists st, w1. split; [reflexivity|].
    pose proof (persist_returns st w1) as R. unfold exec.
    destruct (persist st w1) as [[[]|e] w2]; [reflexivity|discriminate R].
  - left. exists e, w1. split; reflexivity.
Qed.

Lemma same_file_acquire keys client : keeps same_file (acquire keys client).
Proof.
  unfold acquire.
  repeat first
    [ apply same_file_register_user
    | apply same_file_register_referral_user
    | apply same_file_add_referral_and_delete
    | apply same_file_swap_license_keys
    | apply same_file_get_updated_user_info
    | apply same_file_delete_user
    | apply (keeps_ret _ same_file_refl)
    | apply (keeps_bind _ same_file_trans); [|intros ?]
    | match goal with
      | |- keeps _ (match ?x with _ => _ end) => destruct x
      end ].
Qed.

Lemma offline_persist st : keeps offline (persist st).
Proof.
  destruct st as [[[[lic rc] fl] wp] q]. unfold persist.
  destruct (Py.truthy wp && Py.ne q (PInt 0));
    [apply offline_save_key_to_file | apply (keeps_ret _ offline_refl)].
Qed.

Lemma issues_acquire keys client : issues iteration_verbs (acquire keys client).
Proof.
  unfold acquire.
  eapply issues_bind; [apply issues_register_user | intros [[uid lic] tok] |].
  eapply issues_bind; [apply issues_register_referral_user | intros [rid rtok] |].
  eapply issues_bind; [apply issues_add_referral_and_delete | intros _ |].
  eapply issues_bind; [apply issues_swap_license_keys | intros _ |].
  eapply issues_bind;
    [apply issues_get_updated_user_info | intros [[[rc fl] wp] q] |].
  eapply issues_bind; [apply issues_delete_user | intros _ |].
  - apply issues_offline. apply (keeps_ret _ offline_refl).
  - reflexivity.
  - reflexivity.
  - reflexivity.
  - reflexivity.
  - reflexivity.
  - reflexivity.
Qed.

(** The stages up to the one that raises leave the store alone. *)
Lemma stage_error_same_file keys client w e w1 :
  stage_error keys client w e w1 -> file w1 = file w.
Proof.
  intros H.
  destruct H;
    repeat match goal with
           | H : register_user ?c ?a = _ |- _ =>
               let F := fresh "F" in
               pose proof (same_file_register_user c a) as F;
               unfold same_file, exec in F; rewrite H in F; clear H
           | H : register_referral_user ?c ?a = _ |- _ =>
               let F := fresh "F" in
               pose proof (same_file_register_referral_user c a) as F;
               unfold same_file, exec in F; rewrite H in F; clear H
           | H : add_referral_and_delete ?c ?u ?t ?r ?rt ?a = _ |- _ =>
               let F := fresh "F" in
               pose proof (same_file_add_referral_and_delete c u t r rt a) as F;
               unfold same_file, exec in F; rewrite H in F; clear H
           | H : swap_license_keys ?k ?c ?u ?l ?t ?a = _ |- _ =>
               let F := fresh "F" in
               pose proof (same_file_swap_license_keys k c u l t a) as F;
               unfold same_file, exec in F; rewrite H in F; clear H
           | H : get_updated_user_info ?c ?u ?t ?a = _ |- _ =>
               let F := fresh "F" in
               pose proof (same_file_get_updated_user_info c u t a) as F;
               unfold same_file, exec in F; rewrite H in F; clear H
           | H : delete_user ?c ?u ?t ?a = _ |- _ =>
               let F := fresh "F" in
               pose proof (same_file_delete_user c u t a) as F;
               unfold same_file, exec in F; rewrite H in F; clear H
           end;
    cbn [snd] in *; congruence.
Qed.

(** When the six stages return in sequence, each of them returned. *)
Lemma acquire_acquires keys client w lic rc fl wp q w6 :
  acquire keys client w = (Ok (lic, rc, fl, wp, q), w6) ->
  acquires keys client w lic rc fl wp q w6.
Proof.
  unfold acquire, bind, ret.
  destruct (register_user client w) as [[[[uid lic'] tok]|e] w1] eqn:H1;
    [|discriminate].
  destruct (register_referral_user client w1) as [[[rid rtok]|e] w2] eqn:H2;
    [|discriminate].
  destruct (add_referral_and_delete client uid tok rid rtok w2)
    as [[[]|e] w3] eqn:H3; [|discriminate].
  destruct (swap_license_keys keys client uid lic' tok w3) as [[[]|e] w4] eqn:H4;
    [|discriminate].
  destruct (get_updated_user_info client uid tok w4)
    as [[[[[rc' fl'] wp'] q']|e] w5] eqn:H5; [|discriminate].
  destruct (delete_user client uid tok w5) as [[[]|e] w6'] eqn:H6; [|discriminate].
  intros E. injection E as <- <- <- <- <- <-.
  exists uid, tok, rid, rtok, w1, w2, w3, w4, w5. repeat split; assumption.
Qed.

(** X10. Nothing is persisted by an iteration that did not go through all its
    requests. An iteration cut short by an error, whichever of the six
    stages raised it, the delete of the primary account included, leaves
    the store as it was. And when [generate_and_save_key] leaves the store
    different from what it was, the six stages have all returned with an
    account state that is eligible, and the iteration has sent its eight
    requests. *)
Theorem persists_only_after_all_requests (keys : list pyval) (client : Client)
    (w : world) :
  (forall e w1,
     stage_error keys client w e w1 ->
     file (exec (generate_and_save_key keys client) w) = file w)
  /\ (file (exec (generate_and_save_key keys client) w) <> file w ->
      verbs_of (since w (exec (generate_and_save_key keys client) w))
      = iteration_verbs
      /\ exists initial_license referral_count final_license warp_plus quota w6,
           acquires keys client w initial_license referral_count final_license
             warp_plus quota w6
           /\ Py.truthy warp_plus && Py.ne quota (PInt 0) = true).
Proof.
  split.
  - intros e w1 S. unfold exec.
    rewrite (generate_and_save_key_catches _ _ _ _ _ S).
    exact (stage_error_same_file _ _ _ _ _ S).
  - intros H.
    pose proof (same_file_acquire keys client w) as F.
    destruct (issues_acquire keys client w) as (d & E & V).
    unfold exec in *.
    destruct (generate_and_save_key_cases keys client w)
      as [(e & w1 & A & G)|(st & w1 & A & G)];
      rewrite G in *; rewrite A in *; cbn [fst snd] in *.
    + exfalso. apply H. exact F.
    + split.
      * destruct (offline_persist st w1) as (d' & E' & Q').
        unfold exec in *. cbn [snd] in *.
        rewrite (since_app w (snd (persist st w1)) (d ++ d')%list)
          by (rewrite E', E, <- app_assoc; reflexivity).
        rewrite verbs_of_app, V. unfold verbs_of. rewrite Q'. apply app_nil_r.
      * destruct st as [[[[lic rc] fl] wp] q].
        exists lic, rc, fl, wp, q, w1.
        split; [exact (acquire_acquires _ _ _ _ _ _ _ _ _ A)|].
        unfold persist in H.
        destruct (Py.truthy wp && Py.ne q (PInt 0)); [reflexivity|].
        exfalso. apply H. exact F.
Qed.

Lemma undisposed_stage_error :
  stage_error Demo.keys Demo.client Undisposed.w_answered
    (TransportError "timed out") Undisposed.w_dispose_raised.
Proof.
  apply (disposing_raises Demo.keys Demo.client Undisposed.w_answered
           (PStr "u1") (PStr "A") (PStr "t1") Undisposed.w_registered
           (PStr "r1") (PStr "t2") Undisposed.w_referred Undisposed.w_linked
           Undisposed.w_swapped
           (PInt 1, PStr "B", PBool true, PInt 3000) Undisposed.w_read
           (TransportError "timed out") Undisposed.w_dispose_raised);
    vm_compute; reflexivity.
Qed.

Lemma persists_only_after_all_requests_witness :
  file (exec (generate_and_save_key Demo.keys Demo.client) Undisposed.w_answered)
  = file Undisposed.w_answered
  /\ verbs_of (since Demo.w_answered
                 (exec (generate_and_save_key Demo.keys Demo.client)
                    Demo.w_answered))
     = iteration_verbs.
Proof.
  split.
  - exact (proj1 (persists_only_after_all_requests Demo.keys Demo.client
                    Undisposed.w_answered)
             (TransportError "timed out") Undisposed.w_dispose_raised
             undisposed_stage_error).
  - apply (proj2 (persists_only_after_all_requests Demo.keys Demo.client
                    Demo.w_answered)).
    vm_compute. discriminate.
Defined.

(** ** Events of one kind only *)

Lemma adds_refl P w : adds P w w.
Proof. exists []. rewrite app_nil_r. auto. Qed.

Lemma adds_trans P a b c : adds P a b -> adds P b c -> adds P a c.
Proof.
  intros [d1 [E1 M1]] [d2 [E2 M2]]. exists (d1 ++ d2)%list. split.
  - rewrite E2, E1, app_assoc. reflexivity.
  - rewrite forallb_app, M1, M2. reflexivity.
Qed.

Lemma adds_emit P (e : event) : P e = true -> keeps (adds P) (emit e).
Proof.
  intros H w. exists [e]. split; [reflexivity|]. cbn [forallb]. rewrite H. reflexivity.
Qed.

Lemma adds_send P client v path hdrs body :
  P (EvHttp (mk_request v (base_url client ++ path) hdrs body)) = true ->
  keeps (adds P) (httpx.send client v path hdrs body).
Proof.
  intros H w. exists [EvHttp (mk_request v (base_url client ++ path) hdrs body)].
  split; [|cbn [forallb]; rewrite H; reflexivity].
  unfold exec, httpx.send. destruct (replies w 0); reflexivity.
Qed.

Lemma adds_json P r : keeps (adds P) (httpx.json r).
Proof. destruct r; intros w; apply adds_refl. Qed.

Lemma adds_choice P {A} (l : list A) : keeps (adds P) (random.choice l).
Proof.
  intros w. exists []. rewrite app_nil_r. split; [|reflexivity].
  unfold exec, random.choice. destruct l; [reflexivity|].
  destruct (nth_error _ _); reflexivity.
Qed.

(** One step through a computation that sends and logs, [send_ok] being the
    tactic that shows a request to satisfy the predicate. *)
Ltac adds_step send_ok :=
  first
    [ apply (keeps_ret _ (adds_refl _))
    | apply (keeps_raise _ (adds_refl _))
    | apply (keeps_lift _ (adds_refl _))
    | apply (keeps_bind _ (adds_trans _)); [|intros ?]
    | apply (keeps_try _ (adds_trans _)); [|intros ?]
    | match goal with
      | |- keeps _ (match ?x with _ => _ end) => destruct x
      end
    | apply adds_json
    | apply adds_choice
    | apply adds_emit; reflexivity
    | apply adds_send; send_ok ].

Ltac unfold_stages :=
  unfold acquire, register_user, register_referral_user, add_referral_and_delete,
    swap_license_keys, get_updated_user_info, delete_user, httpx.post,
    httpx.patch, httpx.put, httpx.get, httpx.delete, logging.info, logging.error,
    time.sleep.

Lemma unsaved_acquire keys client :
  keeps (adds (fun e => negb (is_saved_line e))) (acquire keys client).
Proof. unfold_stages. repeat adds_step reflexivity. Qed.

Lemma saved_lines_app (a b : list event) :
  saved_lines (a ++ b) = (saved_lines a ++ saved_lines b)%list.
Proof. apply filter_app. Qed.

Lemma unsaved_no_lines (d : list event) :
  forallb (fun e => negb (is_saved_line e)) d = true -> saved_lines d = [].
Proof.
  induction d as [|e d IH]; [reflexivity|].
  cbn [forallb]. intros H. apply andb_prop in H. destruct H as [He Hd].
  unfold saved_lines in *. cbn [filter].
  destruct (is_saved_line e); [discriminate He|]. apply IH. exact Hd.
Qed.

Lemma saved_prefix_is_saved (x : string) :
  is_saved_line (EvInfo (saved_prefix ++ x)) = true.
Proof. apply prefix_append. Qed.

(** ** The store across an iteration and across the batch *)

Lemma accrues_refl w : accrues w w.
Proof.
  intros H. split; [exact H|]. exists [], []. rewrite !app_nil_r. auto.
Qed.

Lemma accrues_trans a b c : accrues a b -> accrues b c -> accrues a c.
Proof.
  intros H1 H2 Ha.
  destruct (H1 Ha) as (Hb & d1 & r1 & E1 & R1 & S1).
  destruct (H2 Hb) as (Hc & d2 & r2 & E2 & R2 & S2).
  split; [exact Hc|]. exists (d1 ++ d2)%list, (r1 ++ r2)%list. repeat split.
  - rewrite E2, E1, app_assoc. reflexivity.
  - rewrite R2, R1, app_assoc. reflexivity.
  - rewrite saved_lines_app, map_app, S1, S2. reflexivity.
Qed.

(** A computation that leaves the store alone and logs no saved key. *)
Lemma accrues_frame {A} (m : M A) :
  keeps same_file m -> keeps (adds (fun e => negb (is_saved_line e))) m ->
  keeps accrues m.
Proof.
  intros F U w Ha. specialize (F w). destruct (U w) as (d & E & Q).
  unfold same_file in F. split; [rewrite F; exact Ha|].
  exists d, []. rewrite F, app_nil_r. repeat split.
  - exact E.
  - apply unsaved_no_lines. exact Q.
Qed.

Lemma accrues_emit (e : event) : is_saved_line e = false -> keeps accrues (emit e).
Proof.
  intros H. apply accrues_frame; [apply same_file_emit|].
  apply adds_emit. rewrite H. reflexivity.
Qed.

Lemma accrues_persist st : keeps accrues (persist st).
Proof.
  destruct st as [[[[lic rc] fl] wp] q]. unfold persist.
  destruct (Py.truthy wp && Py.ne q (PInt 0)); [|apply (keeps_ret _ accrues_refl)].
  intros w Ha.
  destruct (save_key_to_file_appends (PDict [("Quota", q); ("license", fl)]) w Ha)
    as [R A].
  split; [exact R|].
  exists [EvInfo (saved_prefix ++ Py.str fl)],
         [PDict [("Quota", q); ("license", fl)]].
  split; [|split].
  - rewrite save_key_to_file_run by (apply rewritable_appendable; exact Ha).
    reflexivity.
  - exact A.
  - unfold saved_lines. cbn [filter]. rewrite saved_prefix_is_saved. reflexivity.
Qed.

Lemma accrues_generate_and_save_key keys client :
  keeps accrues (generate_and_save_key keys client).
Proof.
  intros w. unfold exec. rewrite generate_and_save_key_split.
  apply (keeps_try _ accrues_trans).
  - apply (keeps_bind _ accrues_trans).
    + apply accrues_frame; [apply same_file_acquire | apply unsaved_acquire].
    + intros st. apply accrues_persist.
  - intros e. apply accrues_emit. reflexivity.
Qed.

Lemma keeps_for_each (R : world -> world -> Prop) (idxs : list Z)
    (body : Z -> M unit) :
  (forall w, R w w) -> (forall a b c, R a b -> R b c -> R a c) ->
  (forall i, keeps R (body i)) -> keeps R (for_each idxs body).
Proof.
  intros Rr Rt Hb. induction idxs as [|i rest IH]; cbn [for_each].
  - apply (keeps_ret _ Rr).
  - apply (keeps_bind _ Rt); [apply Hb | intros _; exact IH].
Qed.

Lemma accrues_main keys n : keeps accrues (main keys n).
Proof.
  unfold main. apply (keeps_bind _ accrues_trans).
  - apply accrues_emit. reflexivity.
  - intros _. cbv zeta. apply (keeps_for_each _ _ _ accrues_refl accrues_trans).
    intros i. apply (keeps_bind _ accrues_trans).
    + apply accrues_emit. reflexivity.
    + intros _. apply (keeps_bind _ accrues_trans).
      * apply accrues_generate_and_save_key.
      * intros _. unfold apply_delay_if_needed.
        destruct (negb (i =? n - 1)%Z);
          [apply accrues_emit; reflexivity | apply (keeps_ret _ accrues_refl)].
Qed.

(** X11. Across a whole batch the store is only ever extended: started on a
    store that takes appends (no file yet, or an array whose text, the
    whitespace at its end aside, is not longer than the script's own text
    for it), [main] leaves a store of the same kind whose first records are
    the ones it found, in their order, and the lines
    [Key successfully saved: L] of its log name, one by one and in order,
    the licenses of the records it added. *)
Theorem batch_only_appends_and_reports_each_record (keys : list pyval) (n : Z)
    (w : world) :
  rewritable (file w) = true ->
  rewritable (file (exec (main keys n) w)) = true
  /\ exists added,
       records (file (exec (main keys n) w)) = (records (file w) ++ added)%list
       /\ saved_lines (since w (exec (main keys n) w)) = map saved_line added.
Proof.
  intros H. destruct (accrues_main keys n w H) as (Ha & d & added & E & R & S).
  split; [exact Ha|]. exists added. split; [exact R|].
  rewrite (since_app _ _ _ E). exact S.
Qed.

Lemma batch_only_appends_and_reports_each_record_witness :
  rewritable (file (exec (main Demo.keys 3) Demo.w_batch)) = true
  /\ exists added,
       records (file (exec (main Demo.keys 3) Demo.w_batch))
       = (records (file Demo.w_batch) ++ added)%list
       /\ saved_lines (since Demo.w_batch (exec (main Demo.keys 3) Demo.w_batch))
          = map saved_line added.
Proof.
  apply (batch_only_appends_and_reports_each_record Demo.keys 3 Demo.w_batch).
  reflexivity.
Defined.

(** X12. The persist decision follows Python's truth values, for every JSON
    value without a fraction or an exponent that the remote end may send
    ([null], booleans, integers, strings, arrays and objects): in an
    iteration whose network stages returned, on a store that takes appends,
    a record is appended exactly when [warp_plus] is truthy and [quota != 0]
    holds, and the record carries the quota as it came; otherwise the store
    is left as it was. A quota that is [null], a string or a list is
    different from 0 and so counts as a quota. *)
Theorem persist_decision_on_any_json (keys : list pyval) (client : Client)
    (w : world)
    (initial_license referral_count final_license warp_plus quota : pyval)
    (w6 : world) :
  acquires keys client w initial_license referral_count final_license
    warp_plus quota w6 ->
  rewritable (file w) = true ->
  if Py.truthy warp_plus && Py.ne quota (PInt 0)
  then rewritable (file (exec (generate_and_save_key keys client) w)) = true
       /\ records (file (exec (generate_and_save_key keys client) w))
          = (records (file w)
               ++ [PDict [("Quota", quota); ("license", final_license)]])%list
  else file (exec (generate_and_save_key keys client) w) = file w.
Proof.
  intros A S.
  pose proof (acquires_same_file _ _ _ _ _ _ _ _ _ A) as F.
  unfold exec. rewrite (generate_and_save_key_decides _ _ _ _ _ _ _ _ _ A).
  destruct (Py.truthy warp_plus && Py.ne quota (PInt 0)).
  - change (snd (save_key_to_file ?r w6)) with (exec (save_key_to_file r) w6).
    rewrite <- F in *. apply save_key_to_file_appends. exact S.
  - exact F.
Qed.

Lemma loose_acquires :
  acquires Demo.keys Demo.client Loose.w_answered
    (PStr "A") PNone (PStr "B") (PInt 1) PNone Loose.w_disposed.
Proof.
  exists (PStr "u1"), (PStr "t1"), (PStr "r1"), (PStr "t2"),
    Loose.w_registered, Loose.w_referred, Loose.w_linked, Loose.w_swapped,
    Loose.w_read.
  repeat split; vm_compute; reflexivity.
Qed.

Lemma persist_decision_on_any_json_witness :
  rewritable (file (exec (generate_and_save_key Demo.keys Demo.client)
                      Loose.w_answered)) = true
  /\ records (file (exec (generate_and_save_key Demo.keys Demo.client)
                      Loose.w_answered))
     = [PDict [("Quota", PNone); ("license", PStr "B")]].
Proof.
  exact (persist_decision_on_any_json Demo.keys Demo.client Loose.w_answered
           (PStr "A") PNone (PStr "B") (PInt 1) PNone Loose.w_disposed
           loose_acquires eq_refl).
Defined.

(** ** Counting across the batch *)

Lemma turn_shape keys client n i w w0 :
  w0 = exec (logging.info (start_prefix ++ Py.str (PInt (i + 1)))) w ->
  exists w',
    (logging.info (start_prefix ++ Py.str (PInt (i + 1))) ;;
     generate_and_save_key keys client ;;
     apply_delay_if_needed i n) w = (Ok tt, w')
    /\ events w'
       = (events w
            ++ iteration_start i
               :: since w0 (exec (generate_and_save_key keys client) w0)
               ++ (if (i =? n - 1)%Z then [] else [EvSleep 45]))%list
    /\ file w' = file (exec (generate_and_save_key keys client) w0).
Proof.
  intros W0.
  assert (E0 : events w0 = (events w ++ [iteration_start i])%list)
    by (subst w0; reflexivity).
  match goal with
  | |- exists w', ?b w = _ /\ _ =>
      change (b w)
        with ((generate_and_save_key keys client ;; apply_delay_if_needed i n)
                (exec (logging.info (start_prefix ++ Py.str (PInt (i + 1)))) w))
  end.
  rewrite <- W0. clear W0.
  pose proof (generate_and_save_key_returns keys client w0) as R.
  destruct (quiet_generate_and_save_key keys client w0) as [d [E Q]].
  rewrite (since_app _ _ _ E).
  unfold bind, exec in *.
  destruct (generate_and_save_key keys client w0) as [[[]|e] w2];
    cbn [fst snd] in *; [|discriminate R].
  unfold apply_delay_if_needed, time.sleep, emit, ret.
  destruct (i =? n - 1)%Z; cbn [negb]; eexists;
    (split; [reflexivity|split; [|reflexivity]]);
    cbn [events]; rewrite E, E0, <- ?app_assoc; cbn [app];
    rewrite ?app_nil_r; reflexivity.
Qed.

Lemma persist_at_most_one_line st w :
  exists d,
    events (exec (persist st) w) = (events w ++ d)%list
    /\ List.length d <= 1.
Proof.
  destruct st as [[[[lic rc] fl] wp] q]. unfold persist.
  destruct (Py.truthy wp && Py.ne q (PInt 0)).
  - destruct (save_key_to_file_one_line (PDict [("Quota", q); ("license", fl)]) w)
      as [e E].
    exists [e]. split; [exact E|]. cbn. lia.
  - exists []. rewrite app_nil_r. split; [reflexivity|]. cbn. lia.
Qed.

Lemma length_filter_le {A} (f : A -> bool) (l : list A) :
  List.length (filter f l) <= List.length l.
Proof.
  induction l as [|a l IH]; [cbn; lia|]. cbn [filter].
  destruct (f a); cbn [List.length]; lia.
Qed.

(** An iteration reports at most one saved key. *)
Lemma generate_and_save_key_saves_at_most_one keys client w :
  List.length
    (saved_lines (since w (exec (generate_and_save_key keys client) w))) <= 1.
Proof.
  destruct (unsaved_acquire keys client w) as (d & E & U).
  apply unsaved_no_lines in U. unfold exec in *.
  destruct (generate_and_save_key_cases keys client w)
    as [(e & w1 & A & G)|(st & w1 & A & G)];
    rewrite G; rewrite A in E; cbn [fst snd] in *.
  - rewrite (since_app w _ (d ++ [EvError "Error during HTTP request processing: " e])%list)
      by (cbn [exec logging.error emit snd events]; rewrite E, <- app_assoc;
          reflexivity).
    rewrite saved_lines_app, U. cbn. lia.
  - destruct (persist_at_most_one_line st w1) as (d' & E' & L').
    rewrite (since_app w _ (d ++ d')%list)
      by (rewrite E', E, <- app_assoc; reflexivity).
    rewrite saved_lines_app, U. cbn [app].
    pose proof (length_filter_le is_saved_line d'). unfold saved_lines. lia.
Qed.

(** A rewrite from offset 0 leaves the array it wrote or, when the end of a
    longer text spoils it, nothing that can be read. *)
Lemma records_overwritten (l : list pyval) (written size padding : nat) :
  List.length (records (json.overwritten (PList l) written size padding))
  <= List.length l.
Proof.
  unfold json.overwritten.
  destruct (size <=? written)%nat; [cbn [records]; lia|].
  destruct (size - written <=? padding)%nat; cbn [records List.length]; lia.
Qed.

(** Whatever the store, a save leaves at most one record more in it. *)
Lemma save_key_to_file_adds_at_most_one (key_info : pyval) (w : world) :
  List.length (records (file (exec (save_key_to_file key_info) w)))
  <= List.length (records (file w)) + 1.
Proof.
  rewrite save_key_to_file_store.
  destruct (file w) as [|[[| | | |l|]|] size padding]; try lia.
  - etransitivity; [apply records_overwritten|]. cbn. lia.
  - etransitivity; [apply records_overwritten|].
    rewrite length_app. cbn [records List.length]. lia.
Qed.

(** And so does an iteration. *)
Lemma generate_and_save_key_adds_at_most_one keys client w :
  List.length (records (file (exec (generate_and_save_key keys client) w)))
  <= List.length (records (file w)) + 1.
Proof.
  pose proof (same_file_acquire keys client w) as F.
  unfold exec, same_file in *.
  destruct (generate_and_save_key_cases keys client w)
    as [(e & w1 & A & G)|(st & w1 & A & G)];
    rewrite G; rewrite A in F; cbn [fst snd] in *.
  - cbn [exec logging.error emit snd file]. rewrite F. lia.
  - rewrite <- F. destruct st as [[[[lic rc] fl] wp] q]. unfold persist.
    destruct (Py.truthy wp && Py.ne q (PInt 0)).
    + apply save_key_to_file_adds_at_most_one.
    + cbn [exec ret snd]. lia.
Qed.

Lemma no_more_saved_refl w : no_more_saved_than_started w w.
Proof. exists []. rewrite app_nil_r. repeat split; cbn; lia. Qed.

Lemma no_more_saved_trans a b c :
  no_more_saved_than_started a b -> no_more_saved_than_started b c ->
  no_more_saved_than_started a c.
Proof.
  intros (d1 & E1 & M1 & R1) (d2 & E2 & M2 & R2).
  exists (d1 ++ d2)%list. split; [|split].
  - rewrite E2, E1, app_assoc. reflexivity.
  - rewrite saved_lines_app, filter_app, !length_app. lia.
  - rewrite filter_app, length_app. lia.
Qed.

Lemma no_more_saved_main keys n : keeps no_more_saved_than_started (main keys n).
Proof.
  unfold main. apply (keeps_bind _ no_more_saved_trans).
  - intros w. exists [EvInfo "Welcome to the Warp+ key generator"].
    repeat split; cbn; lia.
  - intros _. cbv zeta.
    apply (keeps_for_each _ _ _ no_more_saved_refl no_more_saved_trans).
    intros i w.
    destruct (turn_shape keys create_http_client n i w _ eq_refl)
      as (w' & R & E & F).
    fold start_prefix. unfold exec at 1. rewrite R. cbn [snd].
    eexists. split; [exact E|].
    pose proof (generate_and_save_key_saves_at_most_one keys create_http_client
                  (exec (logging.info (start_prefix ++ Py.str (PInt (i + 1)))) w)) as L.
    pose proof (generate_and_save_key_adds_at_most_one keys create_http_client
                  (exec (logging.info (start_prefix ++ Py.str (PInt (i + 1)))) w)) as L'.
    rewrite F.
    change (file (exec (logging.info (start_prefix ++ Py.str (PInt (i + 1)))) w))
      with (file w) in L'.
    change (iteration_start i :: ?x) with ([iteration_start i] ++ x)%list.
    rewrite !saved_lines_app, !filter_app, !length_app.
    assert (S0 : saved_lines [iteration_start i] = []) by reflexivity.
    assert (S1 : saved_lines (if (i =? n - 1)%Z then [] else [EvSleep 45]) = [])
      by (destruct (i =? n - 1)%Z; reflexivity).
    rewrite S0, S1.
    cbn [filter]. rewrite iteration_start_is_mark. cbn [List.length]. lia.
Qed.

Lemma main_starts keys n w :
  filter is_iteration_start (since w (exec (main keys n) w))
  = map iteration_start (range n).
Proof.
  destruct (main_run keys n w) as (d & R & E & P).
  rewrite E. cbn [filter is_iteration_start String.prefix start_prefix].
  change (filter is_iteration_start d = map iteration_start (range n)).
  rewrite <- starts_of_marks, P. apply starts_of_paced.
Qed.

(** X13. Whatever the store it starts on, readable or not, a batch of [n]
    iterations reports at most [n] saved keys and leaves at most [n] records
    more in the store than it found there. *)
Theorem batch_adds_at_most_one_record_per_iteration (keys : list pyval) (n : Z)
    (w : world) :
  List.length (saved_lines (since w (exec (main keys n) w))) <= Z.to_nat n
  /\ List.length (records (file (exec (main keys n) w)))
     <= List.length (records (file w)) + Z.to_nat n.
Proof.
  destruct (no_more_saved_main keys n w) as (d & E & C & R).
  pose proof (main_starts keys n w) as S. rewrite (since_app _ _ _ E) in S.
  rewrite (since_app _ _ _ E).
  rewrite S, length_map, length_range in C, R.
  split; assumption.
Qed.

(** ** The requests of the batch *)

Lemma register_user_opens client w :
  exists d,
    events (exec (register_user client) w)
    = (events w ++ EvHttp (registration_request client) :: d)%list.
Proof.
  unfold register_user. run_reader.
  destruct (replies w 0) as [e|[v|]]; cbn [fst snd events];
    [exists []; reflexivity | | exists []; reflexivity].
  exists [EvInfo "New user registered successfully."].
  destruct (Py.getitem v "id"); cbn [fst snd];
    [destruct (Py.getitem v "account") as [acc|]; cbn [fst snd];
     [destruct (Py.getitem acc "license"); cbn [fst snd];
      [destruct (Py.getitem v "token"); cbn [fst snd]|]|]|];
    cbn [events]; rewrite <- ?app_assoc; reflexivity.
Qed.

(** Every iteration starts with the registration request, whatever comes
    next. *)
Lemma generate_and_save_key_opens keys client w :
  exists d,
    since w (exec (generate_and_save_key keys client) w)
    = EvHttp (registration_request client) :: d.
Proof.
  destruct (register_user_opens client w) as (d0 & E0).
  unfold generate_and_save_key, exec, try_except in *. unfold bind at 1.
  destruct (register_user client w) as [[[[uid lic] tok]|e] w1]; cbn [snd] in E0.
  - match goal with
    | |- context [match ?m w1 with _ => _ end] =>
        assert (Q : keeps quiet m) by quiet_frame;
        destruct (Q w1) as (d1 & E1 & _); unfold exec in E1;
        destruct (m w1) as [[[]|e] w2]
    end; cbn [snd] in E1.
    + exists (d0 ++ d1)%list. apply since_app. cbn [snd].
      rewrite E1, E0, <- app_assoc. reflexivity.
    + exists (d0 ++ d1 ++ [EvError "Error during HTTP request processing: " e])%list.
      apply since_app. cbn [snd logging.error emit events].
      rewrite E1, E0, <- !app_assoc. reflexivity.
  - exists (d0 ++ [EvError "Error during HTTP request processing: " e])%list.
    apply since_app. cbn [snd logging.error emit events].
    rewrite E0, <- !app_assoc. reflexivity.
Qed.

(** The verbs of an iteration are the first [k] of [iteration_verbs] for a
    [k] between 1 and 8. *)
Lemma iteration_protocol_bounded keys client w :
  exists k,
    1 <= k <= 8
    /\ verbs_of (since w (exec (generate_and_save_key keys client) w))
       = firstn k iteration_verbs.
Proof.
  destruct (iteration_protocol keys client w) as (k & P).
  destruct (generate_and_save_key_opens keys client w) as (d & O).
  rewrite O in P.
  destruct (Nat.le_gt_cases k 8) as [Hk|Hk].
  - exists k. split; [|rewrite O; exact P].
    destruct k; [discriminate P|lia].
  - exists 8. split; [lia|]. rewrite O, P.
    rewrite firstn_all2 by (cbn; lia). reflexivity.
Qed.

Lemma batch_verbs_cons k ks :
  batch_verbs (k :: ks) = (firstn k iteration_verbs ++ batch_verbs ks)%list.
Proof. reflexivity. Qed.

Lemma loop_verbs keys client n (idxs : list Z) :
  forall w,
  exists ks d w',
    for_each idxs
      (fun i =>
         logging.info (start_prefix ++ Py.str (PInt (i + 1))) ;;
         generate_and_save_key keys client ;;
         apply_delay_if_needed i n) w = (Ok tt, w')
    /\ events w' = (events w ++ d)%list
    /\ List.length ks = List.length idxs
    /\ Forall (fun k => 1 <= k <= 8) ks
    /\ verbs_of d = batch_verbs ks.
Proof.
  induction idxs as [|i rest IH]; intros w.
  - exists [], [], w. rewrite app_nil_r. repeat split. constructor.
  - cbn [for_each].
    destruct (turn_shape keys client n i w _ eq_refl) as (w1 & R1 & E1 & _).
    destruct (iteration_protocol_bounded keys client
                (exec (logging.info (start_prefix ++ Py.str (PInt (i + 1)))) w))
      as (k & Hk & V).
    destruct (IH w1) as (ks & d & w2 & R2 & E2 & L2 & F2 & V2).
    exists (k :: ks). eexists. exists w2. split; [|split; [|split; [|split]]].
    + unfold bind at 1. rewrite R1. exact R2.
    + rewrite E2, E1, <- app_assoc. reflexivity.
    + cbn [List.length]. rewrite L2. reflexivity.
    + constructor; [exact Hk|exact F2].
    + rewrite batch_verbs_cons, <- V, <- V2.
      change (iteration_start i :: ?x) with ([iteration_start i] ++ x)%list.
      rewrite !verbs_of_app.
      destruct (i =? n - 1)%Z; cbn [verbs_of requests_of map app iteration_start];
        rewrite ?app_nil_r; reflexivity.
Qed.

Lemma length_batch_verbs (ks : list nat) :
  Forall (fun k => 1 <= k <= 8) ks ->
  List.length ks <= List.length (batch_verbs ks) <= 8 * List.length ks.
Proof.
  induction 1 as [|k ks Hk _ IH]; [cbn; lia|].
  rewrite batch_verbs_cons, length_app, length_firstn.
  cbn [List.length iteration_verbs]. lia.
Qed.

(** X14. The requests of a whole batch follow the order of the iteration, one
    iteration after the other: the verbs sent by [main] are as many runs
    as there are iterations, each run the first [k] verbs of POST, POST,
    PATCH, DELETE, PUT, PUT, GET, DELETE for some [k] between 1 and 8. So a
    batch of [n] iterations sends at least [n] and at most [8 n] requests,
    and an iteration that stops early is never resumed. *)
Theorem batch_requests_follow_the_protocol (keys : list pyval) (n : Z) (w : world) :
  (exists ks,
     List.length ks = Z.to_nat n
     /\ Forall (fun k => 1 <= k <= 8) ks
     /\ verbs_of (since w (exec (main keys n) w)) = batch_verbs ks)
  /\ Z.to_nat n
     <= List.length (requests_of (since w (exec (main keys n) w)))
     <= 8 * Z.to_nat n.
Proof.
  destruct (loop_verbs keys create_http_client n (range n)
              (exec (logging.info "Welcome to the Warp+ key generator") w))
    as (ks & d & w' & R & E & L & F & V).
  assert (Hm : main keys n w = (Ok tt, w')) by exact R.
  assert (Hv : verbs_of (since w (exec (main keys n) w)) = batch_verbs ks).
  { unfold exec at 1. rewrite Hm. cbn [snd].
    rewrite (since_app w w' (EvInfo "Welcome to the Warp+ key generator" :: d))
      by (rewrite E; cbn [exec logging.info emit snd events];
          rewrite <- app_assoc; reflexivity).
    exact V. }
  rewrite length_range in L.
  split.
  - exists ks. split; [exact L|]. split; [exact F|exact Hv].
  - pose proof (length_batch_verbs ks F) as B.
    rewrite <- Hv in B. unfold verbs_of in B. rewrite length_map, L in B. exact B.
Qed.

(** ** Where the requests go *)

Lemma prefix_both (b t u : string) :
  String.prefix t u = true -> String.prefix (b ++ t) (b ++ u) = true.
Proof.
  intros H. induction b as [|c b IH]; [exact H|].
  cbn [String.append String.prefix].
  destruct (ascii_dec c c) as [_|N]; [exact IH|contradiction].
Qed.

Lemma bearer_first (v : verb) (token : string) (rest : list (string * string)) :
  match v with
  | POST => true
  | _ =>
      match lookup_header "Authorization"
              (("Authorization", "Bearer " ++ token) :: rest) with
      | Some x => String.prefix "Bearer " x
      | None => false
      end
  end = true.
Proof.
  change (lookup_header "Authorization"
            (("Authorization", "Bearer " ++ token) :: rest))
    with (Some ("Bearer " ++ token)).
  destruct v; try reflexivity; apply prefix_append.
Qed.

Ltac registry_ok :=
  cbn [registry_event to_registry rq_url rq_verb rq_headers];
  apply andb_true_intro; split;
  [apply prefix_both; reflexivity | first [reflexivity | apply bearer_first]].

Lemma adds_exists P : keeps (adds P) os_path.exists_.
Proof. intros w. apply adds_refl. Qed.

Lemma adds_set_file P s : keeps (adds P) (set_file s).
Proof. intros w. exists []. rewrite app_nil_r. split; reflexivity. Qed.

Lemma adds_dump P v indent fp : keeps (adds P) (json.dump v indent fp).
Proof.
  intros w. unfold exec, json.dump, set_file.
  destruct fp; [|destruct (file w) as [|c size padding]];
    exists []; rewrite app_nil_r; split; reflexivity.
Qed.

Lemma adds_load P : keeps (adds P) json.load.
Proof.
  intros w. unfold exec, json.load.
  destruct (file w) as [|[v|] size padding]; apply adds_refl.
Qed.

Lemma adds_append P data x : keeps (adds P) (append data x).
Proof. destruct data; intros w; apply adds_refl. Qed.

Lemma registry_acquire keys client :
  keeps (adds (registry_event client)) (acquire keys client).
Proof. unfold_stages. repeat adds_step registry_ok. Qed.

Lemma registry_save_key_to_file client key_info :
  keeps (adds (registry_event client)) (save_key_to_file key_info).
Proof.
  unfold save_key_to_file, logging.info, logging.error.
  repeat first [ apply adds_exists | apply adds_dump | apply adds_load
               | apply adds_append | adds_step fail ].
Qed.

Lemma registry_generate_and_save_key keys client :
  keeps (adds (registry_event client)) (generate_and_save_key keys client).
Proof.
  intros w. unfold exec. rewrite generate_and_save_key_split.
  apply (keeps_try _ (adds_trans _)).
  - apply (keeps_bind _ (adds_trans _)); [apply registry_acquire|].
    intros [[[[lic rc] fl] wp] q]. unfold persist.
    destruct (Py.truthy wp && Py.ne q (PInt 0));
      [apply registry_save_key_to_file | apply (keeps_ret _ (adds_refl _))].
  - intros e. apply adds_emit. reflexivity.
Qed.

Lemma forallb_requests client (d : list event) :
  forallb (registry_event client) d = true ->
  forallb (to_registry client) (requests_of d) = true.
Proof.
  induction d as [|e d IH]; [reflexivity|].
  cbn [forallb]. intros H. apply andb_prop in H. destruct H as [He Hd].
  destruct e; cbn [requests_of forallb]; try (apply IH; exact Hd).
  cbn [registry_event] in He. rewrite He. apply IH. exact Hd.
Qed.

Lemma registry_main keys n :
  keeps (adds (registry_event create_http_client)) (main keys n).
Proof.
  unfold main. apply (keeps_bind _ (adds_trans _)).
  - apply adds_emit. reflexivity.
  - intros _. cbv zeta.
    apply (keeps_for_each _ _ _ (adds_refl _) (adds_trans _)).
    intros i. apply (keeps_bind _ (adds_trans _)).
    + apply adds_emit. reflexivity.
    + intros _. apply (keeps_bind _ (adds_trans _)).
      * apply registry_generate_and_save_key.
      * intros _. unfold apply_delay_if_needed.
        destruct (negb (i =? n - 1)%Z);
          [apply adds_emit; reflexivity | apply (keeps_ret _ (adds_refl _))].
Qed.

(** X15. Every call a batch makes is a call on the client of
    [create_http_client], whose base URL is
    [https://api.cloudflareclient.com/v0a2223], with a path that begins with
    [/reg], and every call other than the two registrations of an iteration
    passes an [Authorization] header with a bearer token. This is about the
    path as the script writes it, ids of the remote end included as they
    came: what [httpx] makes of it on the wire is not stated. *)
Theorem batch_requests_go_to_the_registry (keys : list pyval) (n : Z) (w : world) :
  forallb (to_registry create_http_client)
    (requests_of (since w (exec (main keys n) w))) = true.
Proof.
  destruct (registry_main keys n w) as (d & E & F).
  rewrite (since_app _ _ _ E). apply forallb_requests. exact F.
Qed.

(** ** The requests of an iteration that goes through *)

Lemma add_referral_and_delete_requests client uid tok rid rtok w :
  fst (add_referral_and_delete client uid tok rid rtok w) = Ok tt ->
  requests_of (since w (exec (add_referral_and_delete client uid tok rid rtok) w))
  = [referrer_update client uid tok rid; account_delete client rid rtok].
Proof.
  unfold add_referral_and_delete. unfold_calls.
  destruct (replies w 0) as [e|b]; [discriminate|].
  cbn [replies fst snd]. destruct (replies w 1) as [e|b']; [discriminate|].
  intros _.
  change [referrer_update client uid tok rid; account_delete client rid rtok]
    with (requests_of
            [EvHttp (referrer_update client uid tok rid);
             EvInfo "Referral added to the user.";
             EvHttp (account_delete client rid rtok);
             EvInfo "Referral user deleted."]).
  run_events.
Qed.

Lemma swap_license_keys_requests keys client uid lic tok w :
  fst (swap_license_keys keys client uid lic tok w) = Ok tt ->
  exists selected,
    In selected keys
    /\ requests_of (since w (exec (swap_license_keys keys client uid lic tok) w))
       = [license_update client uid tok (Py.str selected);
          license_update client uid tok (Py.str lic)].
Proof.
  intros H. destruct keys as [|k ks]; [discriminate H|].
  destruct (choice_picks k ks w) as (x & Hin & C).
  exists x. split; [exact Hin|].
  pose proof (swap_requests (k :: ks) client uid lic tok x w C) as S.
  destruct (replies w 0); [|exact S].
  destruct S as [S _]. rewrite S in H. discriminate H.
Qed.

Lemma delete_user_requests client uid tok w :
  requests_of (since w (exec (delete_user client uid tok) w))
  = [account_delete client uid tok].
Proof.
  unfold delete_user. unfold_calls.
  destruct (replies w 0) as [e|b]; cbn [fst snd].
  - change [account_delete client uid tok]
      with (requests_of [EvHttp (account_delete client uid tok)]).
    run_events.
  - change [account_delete client uid tok]
      with (requests_of [EvHttp (account_delete client uid tok);
                         EvInfo "User deleted after data retrieval."]).
    run_events.
Qed.

(** The events a stage added, from the fact that it only adds events. *)
Lemma stage_delta {A} (m : M A) (w : world) (r : result A) (w1 : world) :
  keeps quiet m -> m w = (r, w1) ->
  events w1 = (events w ++ since w w1)%list.
Proof.
  intros K H. destruct (K w) as (d & E & _). unfold exec in E. rewrite H in E.
  cbn [snd] in E. rewrite (since_app _ _ _ E). exact E.
Qed.

(** X16. An iteration whose stages all return has sent these eight requests, in
    this order: the two registrations; the referrer link on the primary
    account with the primary token; the delete of the referral account with
    the referral token; the probe and the revert on the primary account, the
    revert carrying the license of the registration; the read and the delete
    of the primary account, both with the primary token. The identifiers and
    tokens are the ones the two registrations returned. *)
Theorem requests_of_a_complete_iteration (keys : list pyval) (client : Client)
    (w : world)
    (initial_license referral_count final_license warp_plus quota : pyval)
    (w6 : world) :
  acquires keys client w initial_license referral_count final_license
    warp_plus quota w6 ->
  exists uid tok rid rtok selected,
    fst (register_user client w) = Ok (uid, initial_license, tok)
    /\ fst (register_referral_user client (exec (register_user client) w))
       = Ok (rid, rtok)
    /\ In selected keys
    /\ requests_of (since w (exec (generate_and_save_key keys client) w))
       = [registration_request client;
          registration_request client;
          referrer_update client uid tok rid;
          account_delete client rid rtok;
          license_update client uid tok (Py.str selected);
          license_update client uid tok (Py.str initial_license);
          account_read client uid tok;
          account_delete client uid tok].
Proof.
  intros A.
  pose proof (generate_and_save_key_decides _ _ _ _ _ _ _ _ _ A) as G.
  destruct A as (uid & tok & rid & rtok & w1 & w2 & w3 & w4 & w5 &
                 H1 & H2 & H3 & H4 & H5 & H6).
  pose proof (register_user_requests client w) as Q1.
  pose proof (register_referral_user_requests client w1) as Q2.
  pose proof (add_referral_and_delete_requests client uid tok rid rtok w2) as Q3.
  pose proof (swap_license_keys_requests keys client uid initial_license tok w3) as Q4.
  destruct (get_updated_user_info_opens client uid tok w4) as (rest & Q5 & Q5').
  pose proof (delete_user_requests client uid tok w5) as Q6.
  unfold exec in *.
  rewrite H1 in *. rewrite H2 in *. rewrite H3 in *. rewrite H4 in *.
  rewrite H5 in *. rewrite H6 in *. cbn [fst snd] in *.
  specialize (Q3 eq_refl). destruct (Q4 eq_refl) as (selected & Hin & Q4').
  exists uid, tok, rid, rtok, selected.
  split; [reflexivity|]. split; [rewrite H2; reflexivity|]. split; [exact Hin|].
  pose proof (stage_delta _ _ _ _ (quiet_register_user client) H1) as E1.
  pose proof (stage_delta _ _ _ _ (quiet_register_referral_user client) H2) as E2.
  pose proof (stage_delta _ _ _ _
                (quiet_add_referral_and_delete client uid tok rid rtok) H3) as E3.
  pose proof (stage_delta _ _ _ _
                (quiet_swap_license_keys keys client uid initial_license tok) H4) as E4.
  pose proof (stage_delta _ _ _ _
                (quiet_get_updated_user_info client uid tok) H5) as E5.
  pose proof (stage_delta _ _ _ _ (quiet_delete_user client uid tok) H6) as E6.
  assert (E7 : exists d7,
             events (snd (generate_and_save_key keys client w))
             = (events w6 ++ d7)%list /\ requests_of d7 = []).
  { rewrite G. destruct (Py.truthy warp_plus && Py.ne quota (PInt 0)).
    - apply (offline_save_key_to_file _ w6).
    - exists []. rewrite app_nil_r. split; reflexivity. }
  destruct E7 as (d7 & E7 & Q7).
  rewrite (since_app w _
             (since w w1 ++ since w1 w2 ++ since w2 w3 ++ since w3 w4
                ++ since w4 w5 ++ since w5 w6 ++ d7)%list)
    by (rewrite E7, E6, E5, E4, E3, E2, E1, <- !app_assoc; reflexivity).
  rewrite !requests_of_app, Q1, Q2, Q3, Q4', Q5, Q6, Q7.
  cbn [requests_of]. rewrite Q5'. reflexivity.
Qed.

Lemma requests_of_a_complete_iteration_witness :
  exists uid tok rid rtok selected,
    fst (register_user Demo.client Demo.w_answered) = Ok (uid, PStr "A", tok)
    /\ fst (register_referral_user Demo.client
              (exec (register_user Demo.client) Demo.w_answered))
       = Ok (rid, rtok)
    /\ In selected Demo.keys
    /\ requests_of
         (since Demo.w_answered
            (exec (generate_and_save_key Demo.keys Demo.client) Demo.w_answered))
       = [registration_request Demo.client;
          registration_request Demo.client;
          referrer_update Demo.client uid tok rid;
          account_delete Demo.client rid rtok;
          license_update Demo.client uid tok (Py.str selected);
          license_update Demo.client uid tok (Py.str (PStr "A"));
          account_read Demo.client uid tok;
          account_delete Demo.client uid tok].
Proof.
  exact (requests_of_a_complete_iteration Demo.keys Demo.client Demo.w_answered
           (PStr "A") (PInt 1) (PStr "B") (PBool true) (PInt 3000) Demo.w_disposed
           demo_acquires).
Defined.

(** ** The store does not steer the network *)

Lemma blind_ret {A} (a : A) : store_blind (ret a).
Proof. intros w w' H. split; [reflexivity|exact H]. Qed.

Lemma blind_raise {A} (e : exn) : store_blind (@raise A e).
Proof. intros w w' H. split; [reflexivity|exact H]. Qed.

Lemma blind_lift {A} (r : result A) : store_blind (lift r).
Proof. intros w w' H. split; [reflexivity|exact H]. Qed.

Lemma blind_bind {A B} (m : M A) (k : A -> M B) :
  store_blind m -> (forall a, store_blind (k a)) -> store_blind (bind m k).
Proof.
  intros Hm Hk w w' H. destruct (Hm w w' H) as [R S].
  unfold exec, bind in *.
  destruct (m w) as [[a|e] w1], (m w') as [[a'|e'] w1']; cbn [fst snd] in *;
    try discriminate R.
  - injection R as <-. apply Hk. exact S.
  - injection R as <-. split; [reflexivity|exact S].
Qed.

Lemma blind_try {A} (body : M A) (handler : exn -> M A) :
  store_blind body -> (forall e, store_blind (handler e)) ->
  store_blind (try_except body handler).
Proof.
  intros Hm Hk w w' H. destruct (Hm w w' H) as [R S].
  unfold exec, try_except in *.
  destruct (body w) as [[a|e] w1], (body w') as [[a'|e'] w1']; cbn [fst snd] in *;
    try discriminate R.
  - split; [exact R|exact S].
  - injection R as <-. apply Hk. exact S.
Qed.

Lemma blind_emit (e : event) : store_blind (emit e).
Proof.
  intros w w' (Hq & Hr & Hn). split; [reflexivity|].
  unfold same_traffic, exec, emit. cbn [snd events replies randoms].
  split; [|split; assumption].
  rewrite !requests_of_app, Hq. reflexivity.
Qed.

Lemma blind_send client v path hdrs body :
  store_blind (httpx.send client v path hdrs body).
Proof.
  intros w w' (Hq & Hr & Hn). unfold same_traffic, exec, httpx.send.
  rewrite <- (Hr 0).
  destruct (replies w 0); cbn [fst snd events replies randoms];
    (split; [reflexivity|]);
    (split; [rewrite !requests_of_app, Hq; reflexivity|]);
    (split; [intros n; apply Hr | exact Hn]).
Qed.

Lemma blind_json r : store_blind (httpx.json r).
Proof. destruct r; [apply blind_ret|apply blind_raise]. Qed.

Lemma blind_choice {A} (l : list A) : store_blind (random.choice l).
Proof.
  intros w w' (Hq & Hr & Hn). unfold same_traffic, exec, random.choice.
  destruct l as [|a l]; [split; [reflexivity|repeat split; assumption]|].
  rewrite <- (Hn 0).
  destruct (nth_error _ _); cbn [fst snd events replies randoms];
    (split; [reflexivity|]); (split; [exact Hq|]);
    (split; [exact Hr | intros n; apply Hn]).
Qed.

(** [save_key_to_file] reads the store, but all it lets out is one line of
    the log. *)
Lemma blind_save_key_to_file key_info : store_blind (save_key_to_file key_info).
Proof.
  intros w w' (Hq & Hr & Hn).
  split; [rewrite !save_key_to_file_returns; reflexivity|].
  destruct (save_key_to_file_one_line key_info w) as (e & E).
  destruct (save_key_to_file_one_line key_info w') as (e' & E').
  destruct (offline_save_key_to_file key_info w) as (d & D & Q).
  destruct (offline_save_key_to_file key_info w') as (d' & D' & Q').
  assert (O : replies (exec (save_key_to_file key_info) w) = replies w
              /\ randoms (exec (save_key_to_file key_info) w) = randoms w).
  { unfold save_key_to_file, exec, try_except, bind, os_path.exists_,
      json.load, json.dump, set_file, append, lift, ret, raise, logging.info,
      logging.error, emit.
    destruct (file w) as [|[[| | | |l|]|]] eqn:F;
      cbn [negb file fst snd replies randoms]; rewrite ?F;
      cbn [fst snd replies randoms];
      try (split; reflexivity);
      destruct (Py.getitem key_info "license"); split; reflexivity. }
  assert (O' : replies (exec (save_key_to_file key_info) w') = replies w'
               /\ randoms (exec (save_key_to_file key_info) w') = randoms w').
  { unfold save_key_to_file, exec, try_except, bind, os_path.exists_,
      json.load, json.dump, set_file, append, lift, ret, raise, logging.info,
      logging.error, emit.
    destruct (file w') as [|[[| | | |l|]|]] eqn:F;
      cbn [negb file fst snd replies randoms]; rewrite ?F;
      cbn [fst snd replies randoms];
      try (split; reflexivity);
      destruct (Py.getitem key_info "license"); split; reflexivity. }
  destruct O as [Or On], O' as [Or' On'].
  split; [|split].
  - rewrite D, D', !requests_of_app, Q, Q', Hq. reflexivity.
  - intros n. rewrite Or, Or'. apply Hr.
  - intros n. rewrite On, On'. apply Hn.
Qed.

Ltac blind_step :=
  first
    [ apply blind_save_key_to_file
    | apply blind_ret
    | apply blind_raise
    | apply blind_lift
    | apply blind_json
    | apply blind_choice
    | apply blind_emit
    | apply blind_send
    | apply blind_bind; [|intros ?]
    | apply blind_try; [|intros ?]
    | match goal with
      | |- store_blind (match ?x with _ => _ end) => destruct x
      end ].

Lemma blind_generate_and_save_key keys client :
  store_blind (generate_and_save_key keys client).
Proof.
  unfold generate_and_save_key. unfold_stages. repeat blind_step.
Qed.

Lemma blind_for_each (idxs : list Z) (body : Z -> M unit) :
  (forall i, store_blind (body i)) -> store_blind (for_each idxs body).
Proof.
  intros Hb. induction idxs as [|i rest IH]; cbn [for_each].
  - apply blind_ret.
  - apply blind_bind; [apply Hb | intros _; exact IH].
Qed.

Lemma blind_main keys n : store_blind (main keys n).
Proof.
  unfold main. apply blind_bind; [apply blind_emit|]. intros _. cbv zeta.
  apply blind_for_each. intros i.
  apply blind_bind; [apply blind_emit|]. intros _.
  apply blind_bind; [apply blind_generate_and_save_key|]. intros _.
  unfold apply_delay_if_needed, time.sleep.
  destruct (negb (i =? n - 1)%Z); [apply blind_emit|apply blind_ret].
Qed.

(** X17. The store does not steer the network: started on two stores, the same
    otherwise, a batch sends the same requests in the same order. A store
    that cannot be extended, on which every key is lost, does not keep
    [main] from registering and deleting accounts for each iteration. *)
Theorem batch_requests_ignore_the_store (keys : list pyval) (n : Z) (w : world)
    (s : store) :
  requests_of (since (with_file w s) (exec (main keys n) (with_file w s)))
  = requests_of (since w (exec (main keys n) w)).
Proof.
  assert (T : same_traffic (with_file w s) w) by (repeat split).
  destruct (blind_main keys n _ _ T) as (_ & Q & _).
  destruct (registry_main keys n w) as (d & E & _).
  destruct (registry_main keys n (with_file w s)) as (d' & E' & _).
  rewrite (since_app _ _ _ E), (since_app _ _ _ E').
  rewrite E, E', !requests_of_app in Q. cbn [with_file events] in Q.
  apply app_inv_head in Q. exact Q.
Qed.
